(** * safe-unix-mcp: the tool table, its JSON-RPC dispatcher, and the setup script

    A shallow embedding of the two scripts of the repository.

    The server script (the file with the [tools] object and the stdio
    loop): the helpers [rejectForbidden], [ensureOnly] and [run], every
    entry of [tools], [reply], the three request handlers ([initialize],
    [tools/list], [tools/call]) and the ['data'] listener that cuts the
    input into lines.

    The setup script: the command line ([configPathArg], [forceMode]),
    [UNSAFE_PATTERNS], [getSafeUnixConfig], [detectUnsafeServers],
    [prompt] and [main].

    Conventions.
    - A JS string is a [string]; an argument vector is a [list string].
    - [new Set(xs)] used only through [.has] is the list [xs] with [has].
    - A function that throws or returns is a computation in the monad [M]:
      it threads the host (the operating system seen through [spawn], and
      the trace of processes launched so far) and ends in [Normal v] or
      [Throw e].  An [async] function whose promise is awaited inside
      [try]/[catch] behaves the same way: rejection is [Throw].
    - The ['data'] listener is an [async] function over a shared buffer:
      what runs without interruption is a run of its loop, up to the next
      [await]; the server is a state on which the arrival of a chunk and
      the settling of an awaited promise act, in whatever order the host
      brings them.
    - A plain object used as a table ([tools]) is an association list in
      source order (all keys are non-numeric strings, so [Object.keys]
      yields them in that order) whose property read [tools[name]] falls
      back to [Object.prototype], as the language prescribes. *)

From Stdlib Require Import ZArith String Ascii List Bool FunInd Recdef.
From stdpp Require Import base decidable list strings pretty.

Open Scope string_scope.

(** ** Values *)

(** A thrown JS error: [new Error(m)], or a [TypeError] raised by the
    engine. *)
Inductive JSError :=
| Error (message : string)
| TypeError (message : string).

Definition message_of (e : JSError) : string :=
  match e with Error m | TypeError m => m end.

(** [String(e)] for an error object: the name alone when the message is
    empty, the message prefixed by the name otherwise. *)
Definition String_of_error (e : JSError) : string :=
  let name := match e with Error _ => "Error" | TypeError _ => "TypeError" end in
  if String.eqb (message_of e) "" then name else name ++ ": " ++ message_of e.

(** The call [spawn(cmd, args, { ...STDIO, shell: false })]. *)
Record SpawnCall := {
  file : string;
  argv : list string;
  shell : bool
}.

(** What the child reports back: an ['error'] event (it could not be
    started), or ['close'] with the exit code ([None] is JS [null], a
    child ended by a signal) after all of stdout and stderr was read. *)
Inductive ProcEvent :=
| EvError (e : JSError)
| EvClose (code : option Z) (out err : string).

(** The value [run] resolves with: [{ code, out, err }]. *)
Record RunResult := {
  code : Z;
  out : string;
  err : string
}.

Inductive Completion (A : Type) :=
| Normal (a : A)
| Throw (e : JSError).
Arguments Normal {A} a.
Arguments Throw {A} e.

(** ** Helpers that do not touch the host *)

Definition startsWith (a prefix : string) : bool := String.prefix prefix a.

(** [s.has(a)] / [xs.includes(a)] on strings. *)
Definition has (s : list string) (a : string) : bool := bool_decide (a ∈ s).

Definition FORBIDDEN_TOKENS : list string :=
  ["-exec"; "-ok"; "-delete"; "-i"; "--in-place"].

(** [/^sha(1|224|256|384|512)sum$/.test(tool)] *)
Definition sha_sum_re (tool : string) : bool :=
  existsb (fun d => String.eqb tool ("sha" ++ d ++ "sum"))
          ["1"; "224"; "256"; "384"; "512"].

(** [`${code}`] for a number or [null]. *)
Definition show_code (code : option Z) : string :=
  match code with Some n => pretty n | None => "null" end.

(** ** Lines of the input stream *)

(** The line terminator ["\n"]. *)
Definition newline : ascii := "010"%char.

(** [s.indexOf(c)] for a one-character [c]; [None] is [-1]. *)
Fixpoint indexOf (c : ascii) (s : string) : option nat :=
  match s with
  | EmptyString => None
  | String x s' => if Ascii.eqb x c then Some 0 else option_map S (indexOf c s')
  end.

(** [s.slice(from, to)] for [0 <= from <= to]. *)
Definition slice (s : string) (from to : nat) : string := substring from (to - from) s.

(** What the loop makes of a line: it skips it (the line is blank, or
    [JSON.parse] raises), it reads a property of [null] (the line is the
    JSON [null]), or it has a request (with an integer id, as in
    [Request]). *)
Inductive Line' (R : Type) :=
| LSkip
| LNull
| LMsg (msg : R).
Arguments LSkip {R}.
Arguments LNull {R}.
Arguments LMsg {R} msg.

(** How a run of the loop of the ['data'] listener ends: [buf] holds no
    complete line any more, the listener returns from inside the loop, it
    reaches an [await], or it raises. *)
Inductive Exit := Drained | Returned | Awaiting | Raised.

Lemma indexOf_lt c s idx : indexOf c s = Some idx -> idx < String.length s.
Proof.
  revert idx. induction s as [|x s IH]; cbn [indexOf String.length]; [discriminate|].
  destruct (Ascii.eqb x c); intros idx; [intros [= <-]; lia|].
  destruct (indexOf c s) as [n|]; cbn [option_map]; [|discriminate].
  intros [= <-]. specialize (IH n eq_refl). lia.
Qed.

Lemma length_substring n m s :
  n + m <= String.length s -> String.length (substring n m s) = m.
Proof.
  revert n m. induction s as [|x s IH]; intros [|n] [|m];
    cbn [substring String.length]; try lia; intros H.
  - rewrite IH; lia.
  - apply IH. lia.
  - apply IH. lia.
Qed.

(** ** The setup script: command line and configuration

    The script that registers the server in a client's configuration
    file.  Reading and writing the file, the console and the terminal are
    left out: [main] is modelled from the parsed configuration to the
    configuration it writes.
    - The configuration is a JSON object of which the script reads only
      [mcpServers]; an object is the list of its properties in property
      order, as [Object.entries] lists them.  [None] stands for an absent
      or falsy value.
    - [mcpServers], when truthy, is an object; each of its entries is
      [null] or an object, whose [command] and [description] are strings
      when present.
    - Values the script only copies are of an arbitrary type [JSON]. *)

(** [s.split(sep)] for a one-character separator. *)
Fixpoint split (sep : ascii) (s : string) : list string :=
  match s with
  | EmptyString => [EmptyString]
  | String c s' =>
      if Ascii.eqb c sep then EmptyString :: split sep s'
      else match split sep s' with
           | seg :: segs => String c seg :: segs
           | [] => [String c EmptyString]
           end
  end.

(** [const configPathArg = args.find(a => a.startsWith("--config-path="))] *)
Definition configPathArg (args : list string) : option string :=
  List.find (fun a => startsWith a "--config-path=") args.

(** [const forceMode = args.includes("--force")] *)
Definition forceMode (args : list string) : bool := has args "--force".

(** The operand of [resolve] in [CONFIG_PATH]: [configPathArg.split("=")[1]],
    or [None] when the default path is taken. *)
Definition config_path_operand (args : list string) : option string :=
  match configPathArg args with
  | Some a => Some (nth 1 (split "=" a) EmptyString)
  | None => None
  end.

(** The patterns of [UNSAFE_PATTERNS], each matched with the [i] flag. *)
Definition UNSAFE_PATTERNS : list string :=
  ["unix"; "shell"; "bash"; "command"; "exec"; "filesystem"; "file-system"].

(** Case folding of the [i] flag on a pattern of ASCII characters: only
    the letters A to Z fold onto a pattern letter. *)
Definition fold_case (c : ascii) : ascii :=
  let n := nat_of_ascii c in
  if Nat.leb 65 n && Nat.leb n 90 then ascii_of_nat (n + 32) else c.

Fixpoint lowercase (s : string) : string :=
  match s with
  | EmptyString => EmptyString
  | String c s' => String (fold_case c) (lowercase s')
  end.

(** Does [pat] occur in [s]? *)
Fixpoint occurs (pat s : string) : bool :=
  String.prefix pat s ||
  match s with
  | EmptyString => false
  | String _ s' => occurs pat s'
  end.

(** [/pat/i.test(s)] for a pattern of lower-case letters and hyphens. *)
Definition test_i (pat s : string) : bool := occurs pat (lowercase s).

(** Some pattern of [UNSAFE_PATTERNS] matches [s]. *)
Definition suspicious (s : string) : bool :=
  existsb (fun pattern => test_i pattern s) UNSAFE_PATTERNS.

Section SetupScript.

Context {JSON : Type}.

(** The JSON string with a given text. *)
Variable JString : string -> JSON.

(** The text of the [TypeError] raised by reading a property of [null]. *)
Variable null_read_message : string.

Inductive ServerEntry :=
| SNull
| SObject (command description : option string) (fields : list (string * JSON)).

Record Config := {
  mcpServers : option (list (string * ServerEntry));
  settings : list (string * JSON)
}.

(** [function getSafeUnixConfig()] *)
Definition getSafeUnixConfig : ServerEntry :=
  SObject (Some "mcp-safe-unix")
          (Some "Safe read-only Unix tools (no destructive operations)")
          [("transport", JString "stdio")].

(** [function detectUnsafeServers(mcpServers)] *)
Fixpoint detectUnsafeServers (mcpServers : list (string * ServerEntry))
  : Completion (list (string * ServerEntry)) :=
  match mcpServers with
  | [] => Normal []
  | (name, config) :: rest =>
      if String.eqb name "safe-unix" then detectUnsafeServers rest
      else
        let nameMatches := existsb (fun pattern => test_i pattern name) UNSAFE_PATTERNS in
        match config with
        | SNull => Throw (TypeError null_read_message)
        | SObject command description _ =>
            let cmd := default EmptyString command in
            let desc := default EmptyString description in
            let cmdMatches :=
              existsb (fun pattern => test_i pattern cmd || test_i pattern desc)
                      UNSAFE_PATTERNS in
            match detectUnsafeServers rest with
            | Throw e => Throw e
            | Normal unsafe =>
                Normal (if nameMatches || cmdMatches
                        then (name, config) :: unsafe else unsafe)
            end
        end
  end.

(** The entries [detectUnsafeServers] pushes: any but ["safe-unix"] whose
    name, command or description is suspicious. *)
Definition reported (entry : string * ServerEntry) : bool :=
  negb (String.eqb (fst entry) "safe-unix") &&
  match snd entry with
  | SNull => false
  | SObject command description _ =>
      suspicious (fst entry) || suspicious (default EmptyString command)
      || suspicious (default EmptyString description)
  end.

(** The entries on which [detectUnsafeServers] raises: [null] under a
    name other than ["safe-unix"]. *)
Definition unreadable (entry : string * ServerEntry) : bool :=
  negb (String.eqb (fst entry) "safe-unix") &&
  match snd entry with SNull => true | SObject _ _ _ => false end.

(** [delete obj[name]] *)
Definition delete_property {V} (name : string) (obj : list (string * V)) : list (string * V) :=
  List.filter (fun kv => negb (String.eqb (fst kv) name)) obj.

(** [obj[name] = v]: an existing property keeps its place, a new one
    comes last. *)
Fixpoint set_property {V} (name : string) (v : V) (obj : list (string * V)) : list (string * V) :=
  match obj with
  | [] => [(name, v)]
  | (k, w) :: obj' =>
      if String.eqb k name then (k, v) :: obj' else (k, w) :: set_property name v obj'
  end.

(** [obj[name]] for an own property. *)
Fixpoint get_property {V} (name : string) (obj : list (string * V)) : option V :=
  match obj with
  | [] => None
  | (k, w) :: obj' => if String.eqb k name then Some w else get_property name obj'
  end.

(** [async function prompt(question)]: in force mode the answer is ["y"]
    and nothing is read; otherwise the next answer is taken, trimmed and
    lower-cased already; with no answer left the promise never settles. *)
Definition prompt (force : bool) (answers : list string) : option (string * list string) :=
  if force then Some ("y", answers)
  else match answers with
       | answer :: answers' => Some (answer, answers')
       | [] => None
       end.

(** How a run of the script ends: it exits after ["Setup cancelled"], it
    writes the configuration, it dies of an exception, or it waits for an
    answer that never comes. *)
Inductive Outcome :=
| Cancelled
| Written (config : Config)
| Fatal (e : JSError)
| Stalled.

(** [async function main()], from what [readConfig] returned ([None] when
    there is no usable file) to the call of [writeConfig]. *)
Definition main (force : bool) (file : option Config) (answers : list string) : Outcome :=
  match
    match file with
    | Some config => inl (config, false, answers)
    | None =>
        match prompt force answers with
        | None => inr Stalled
        | Some (answer, answers') =>
            if negb (String.eqb answer "y") then inr Cancelled
            else inl ({| mcpServers := None; settings := [] |}, true, answers')
        end
    end
  with
  | inr stop => stop
  | inl (config, isNewConfig, answers1) =>
      let servers := default [] (mcpServers config) in
      match detectUnsafeServers servers with
      | Throw e => Fatal e
      | Normal unsafeServers =>
          match
            if Nat.ltb 0 (length unsafeServers) then
              match prompt force answers1 with
              | None => inr Stalled
              | Some (answer, answers') =>
                  if String.eqb answer "y"
                  then inl (fold_left (fun obj name => delete_property name obj)
                                      (map fst unsafeServers) servers, answers')
                  else inl (servers, answers')
              end
            else inl (servers, answers1)
          with
          | inr stop => stop
          | inl (servers', answers2) =>
              let config' :=
                {| mcpServers := Some (set_property "safe-unix" getSafeUnixConfig servers');
                   settings := settings config |} in
              if negb force && negb isNewConfig then
                match prompt force answers2 with
                | None => Stalled
                | Some (answer, _) =>
                    if negb (String.eqb answer "y") then Cancelled else Written config'
                end
              else Written config'
          end
      end
  end.

(** The servers and the other settings [main] starts from. *)
Definition servers_of (file : option Config) : list (string * ServerEntry) :=
  match file with
  | Some config => default [] (mcpServers config)
  | None => []
  end.

Definition settings_of (file : option Config) : list (string * JSON) :=
  match file with
  | Some config => settings config
  | None => []
  end.

(** The servers left once every reported name is deleted. *)
Definition purge (servers : list (string * ServerEntry)) : list (string * ServerEntry) :=
  List.filter
    (fun kv => negb (has (map fst (List.filter reported servers)) (fst kv)))
    servers.

End SetupScript.

(** A configuration for running the script: JSON values the script only
    copies are strings here. *)
Definition sample_null_message : string :=
  "Cannot read properties of null (reading 'command')".

Definition sample_config : @Config string :=
  {| mcpServers :=
       Some [("shell-mcp", SObject (Some "npx") (Some "Run commands") []);
             ("notes", SObject (Some "notes-server") None [("port", "8080")]);
             ("safe-unix", SObject (Some "node") None [])];
     settings := [("theme", "dark")] |}.

(** What a forced run writes for [sample_config]. *)
Definition sample_written : @Config string :=
  {| mcpServers :=
       Some [("notes", SObject (Some "notes-server") None [("port", "8080")]);
             ("safe-unix", getSafeUnixConfig (fun s => s))];
     settings := [("theme", "dark")] |}.

(** ** Stand-ins for the operating system

    Two executors over a one-state system, for running the definitions on
    concrete requests: under [quiet] every process closes with code 0 and
    no output; under [failing text] every process prints [text] on stderr
    and closes with code 1. *)

Definition quiet (_ : SpawnCall) (w : unit) : unit * ProcEvent :=
  (w, EvClose (Some 0%Z) "" "").

Definition failing (text : string) (_ : SpawnCall) (w : unit) : unit * ProcEvent :=
  (w, EvClose (Some 1%Z) "" text).

(** A stand-in for the engine's message texts. *)
Definition plain_message (_ : string) : string :=
  "Cannot convert undefined or null to object".

(** ** The host and the monad *)

Section Server.

(** The operating system is a black box: [spawn] says what a launched
    process reports and how it leaves the system. *)
Context {World : Type}.
Variable spawn : SpawnCall -> World -> World * ProcEvent.

(** The host: the system, and the record of every process launch
    attempted so far (oldest first). *)
Record Host := {
  world : World;
  spawned : list SpawnCall
}.

Definition M (A : Type) : Type := Host -> Host * Completion A.

Definition ret {A} (a : A) : M A := fun h => (h, Normal a).
Definition throw {A} (e : JSError) : M A := fun h => (h, Throw e).
Definition bind {A B} (m : M A) (k : A -> M B) : M B :=
  fun h => match m h with
           | (h', Normal a) => k a h'
           | (h', Throw e) => (h', Throw e)
           end.
Notation "m1 >> m2" := (bind m1 (fun _ => m2))
  (at level 90, right associativity).

(** [function rejectForbidden(argv)] *)
Fixpoint rejectForbidden (argv : list string) : M unit :=
  match argv with
  | [] => ret tt
  | a :: argv' =>
      if has FORBIDDEN_TOKENS a
      then throw (Error ("forbidden argument: " ++ a))
      else rejectForbidden argv'
  end.

(** [function ensureOnly(argv, allowlist = [])] *)
Fixpoint ensureOnly (argv : list string) (allowlist : list string) : M unit :=
  match argv with
  | [] => ret tt
  | a :: argv' =>
      if negb (has allowlist a) && startsWith a "-"
      then throw (Error ("flag not allowed here: " ++ a))
      else ensureOnly argv' allowlist
  end.

(** [function run(cmd, args)]: launches the process, without a shell, and
    settles on the first of ['error'] and ['close']. *)
Definition run (cmd : string) (args : list string) : M RunResult :=
  fun h =>
    let call := {| file := cmd; argv := args; shell := false |} in
    let '(w, ev) := spawn call (world h) in
    let h' := {| world := w; spawned := spawned h ++ [call] |} in
    match ev with
    | EvError e => (h', Throw e)
    | EvClose c o e =>
        match c with
        | Some 0%Z => (h', Normal {| code := 0; out := o; err := e |})
        | _ => (h', Throw (Error (if String.eqb e "" then "exit " ++ show_code c else e)))
        end
    end.

(** ** The tool table *)

(** The parameter of a tool is the request's [arguments] object; only its
    [args] property is read, [None] when it is absent ([{ args = [] }]). *)
Definition Tool : Type := option (list string) -> M RunResult.

Definition pass (cmd : string) : Tool := fun a => run cmd (default [] a).
Definition fixed (cmd : string) : Tool := fun _ => run cmd [].

Definition ls_allowlist : list string :=
  ["-l"; "-la"; "-lah"; "-1"; "-A"; "-F"; "-p"; "-R"].
Definition tar_allowed : list string := ["-t"; "-f"; "-v"; "--list"].
(** The tool names [safe_sha] recognises in its first argument. *)
Definition sha_tools : list string :=
  ["sha1sum"; "sha224sum"; "sha256sum"; "sha384sum"; "sha512sum";
   "shasum"; "md5sum"; "md5"].
Definition allowedSub : list string :=
  ["status"; "diff"; "show"; "log"; "ls-files"; "rev-parse"; "branch";
   "tag"; "remote"; "blame"; "cat-file"; "describe"].

Definition safe_ls : Tool := fun a =>
  let args := default [] a in
  ensureOnly (List.filter (fun a => startsWith a "-") args) ls_allowlist >>
  run "ls" args.

Definition safe_stat : Tool := fun a =>
  let args := default [] a in
  run "stat" (List.filter (fun a => negb (startsWith a "--")) args).

Definition safe_sed : Tool := fun a =>
  let args := default [] a in
  rejectForbidden args >>
  run "sed" args.

Definition safe_sha : Tool := fun a =>
  let args := default [] a in
  let '(tool, rest) :=
    match (if Nat.eqb (length args) 0 then ["sha256sum"] else args) with
    | tool :: rest => (tool, rest)
    | [] => ("", [])
    end in
  if sha_sum_re tool then run tool rest
  else if String.eqb tool "shasum" then run "shasum" rest
  else if String.eqb tool "md5sum" || String.eqb tool "md5" then run tool rest
  else run "sha256sum" args.

Definition safe_tar_list : Tool := fun a =>
  let args := default [] a in
  let allowed := tar_allowed in
  ensureOnly (List.filter (fun a => startsWith a "-") args) allowed >>
  run "tar" args.

Definition safe_unzip_list : Tool := fun a =>
  let args := default [] a in
  if negb (has args "-l")
  then throw (Error "safe_unzip_list requires -l (list) mode")
  else run "unzip" args.

Definition safe_find : Tool := fun a =>
  let args := default [] a in
  rejectForbidden args >>
  run "find" args.

(** [args[0] || ""]: the first token, [""] when there is none. *)
Definition safe_git : Tool := fun a =>
  let args := default [] a in
  let sub := match args with s :: _ => s | [] => "" end in
  if negb (has allowedSub sub)
  then throw (Error ("git subcommand not allowed: " ++ sub))
  else run "git" args.

(** [const tools = { ... }], in source order. *)
Definition tools : list (string * Tool) :=
  [ ("safe_ls", safe_ls);
    ("safe_pwd", fixed "pwd");
    ("safe_stat", safe_stat);
    ("safe_file", pass "file");
    ("safe_cat", pass "cat");
    ("safe_head", pass "head");
    ("safe_tail", pass "tail");
    ("safe_less", pass "less");
    ("safe_more", pass "more");
    ("safe_grep", pass "grep");
    ("safe_awk", pass "awk");
    ("safe_sed", safe_sed);
    ("safe_cut", pass "cut");
    ("safe_paste", pass "paste");
    ("safe_tr", pass "tr");
    ("safe_sort", pass "sort");
    ("safe_uniq", pass "uniq");
    ("safe_fmt", pass "fmt");
    ("safe_fold", pass "fold");
    ("safe_column", pass "column");
    ("safe_wc", pass "wc");
    ("safe_cksum", pass "cksum");
    ("safe_sha", safe_sha);
    ("safe_tar_list", safe_tar_list);
    ("safe_zipinfo", pass "zipinfo");
    ("safe_unzip_list", safe_unzip_list);
    ("safe_du", pass "du");
    ("safe_df", pass "df");
    ("safe_env", pass "env");
    ("safe_id", fixed "id");
    ("safe_uname", pass "uname");
    ("safe_date", pass "date");
    ("safe_ps", pass "ps");
    ("safe_uptime", fixed "uptime");
    ("safe_find", safe_find);
    ("safe_git", safe_git);
    ("safe_jq", pass "jq");
    ("safe_yq", pass "yq");
    ("safe_hexdump", pass "hexdump");
    ("safe_xxd", pass "xxd");
    ("safe_od", pass "od");
    ("safe_tree", pass "tree");
    ("safe_sw_vers", fixed "sw_vers") ].

(** ** Property reads on the table *)

(** [Object.keys(tools)] *)
Definition Object_keys (t : list (string * Tool)) : list string := map fst t.

(** The own property [name] of the table (its keys are pairwise distinct,
    see [tools_keys_NoDup], so the first hit is the only one). *)
Fixpoint own_property (t : list (string * Tool)) (name : string) : option Tool :=
  match t with
  | [] => None
  | (k, f) :: t' => if String.eqb k name then Some f else own_property t' name
  end.

(** The function-valued properties every object literal inherits from
    [Object.prototype]. *)
Definition Object_prototype_functions : list string :=
  ["constructor"; "__defineGetter__"; "__defineSetter__"; "hasOwnProperty";
   "__lookupGetter__"; "__lookupSetter__"; "isPrototypeOf";
   "propertyIsEnumerable"; "toString"; "valueOf"; "toLocaleString"].

(** What [tools[name]] evaluates to. *)
Inductive Property :=
| PTool (f : Tool)
| PBuiltin (name : string)
| PPrototype
| PUndefined.

(** [t[name]]: the own property, else the one of [Object.prototype]
    ([__proto__] is an accessor there and yields the prototype). *)
Definition get (t : list (string * Tool)) (name : string) : Property :=
  match own_property t name with
  | Some f => PTool f
  | None =>
      if has Object_prototype_functions name then PBuiltin name
      else if String.eqb name "__proto__" then PPrototype
      else PUndefined
  end.

(** [!!fn] *)
Definition truthy (fn : Property) : bool :=
  match fn with PUndefined => false | _ => true end.

(** The text the engine puts in the [TypeError] a builtin raises when it
    is called with [this] undefined. *)
Variable builtin_message : string -> string.

(** [const { out } = await fn(args || {})]: the value bound to [out]
    ([None] is [undefined]).  A tool resolves with [{ code, out, err }].
    Called as a plain function (so [this] is undefined) with an object,
    [Object] returns that object and [Object.prototype.toString] a string,
    neither of which has an [out]; every other inherited builtin starts by
    converting [this] to an object and raises; a value that is no function
    cannot be called. *)
Definition call_property (fn : Property) (a : option (list string)) : M (option string) :=
  match fn with
  | PTool f => bind (f a) (fun r => ret (Some (out r)))
  | PBuiltin name =>
      if String.eqb name "constructor" || String.eqb name "toString"
      then ret None
      else throw (TypeError (builtin_message name))
  | PPrototype | PUndefined => throw (TypeError "fn is not a function")
  end.

(** ** The JSON-RPC handlers *)

Definition SERVER_NAME : string := "safe-unix-mcp".
Definition VERSION : string := "0.1.0".

(** A decoded request line: [msg.id], [msg.method], [msg.params.name] and
    the [args] property of [msg.params.arguments], a vector of strings
    ([None] when [arguments] or its [args] is absent; the object carries
    no other property). *)
Record Request := {
  id : Z;
  method : string;
  name : string;
  arguments : option (list string)
}.

Inductive Result :=
| RInitialize (serverInfo : string * string) (capabilities_tools : list (string * string))
| RNames (names : list string)
| RCall (stdout : option string)
| ROk
| RNull.

Inductive Payload :=
| PResult (result : Result)
| PError (code : Z) (message : string).

Record Response := {
  rid : Z;
  payload : Payload
}.

(** [function reply(id, result, error)] *)
Definition reply (id : Z) (result : Result) (error : option JSError) : Response :=
  {| rid := id;
     payload :=
       match error with
       | Some e =>
           PError (-32000)
             (if String.eqb (message_of e) "" then String_of_error e else message_of e)
       | None => PResult result
       end |}.

(** The body of the loop for one decoded line. *)
Definition handle (msg : Request) (h : Host) : Host * Response :=
  if String.eqb (method msg) "initialize" then
    (h, reply (id msg)
          (RInitialize (SERVER_NAME, VERSION)
             (map (fun name => (name, "Safe Unix utility")) (Object_keys tools)))
          None)
  else if String.eqb (method msg) "tools/list" then
    (h, reply (id msg) (RNames (Object_keys tools)) None)
  else if String.eqb (method msg) "tools/call" then
    let fn := get tools (name msg) in
    if negb (truthy fn) then (h, reply (id msg) RNull (Some (Error "unknown tool")))
    else
      match call_property fn (arguments msg) h with
      | (h', Normal out) => (h', reply (id msg) (RCall out) None)
      | (h', Throw e) => (h', reply (id msg) RNull (Some e))
      end
  else (h, reply (id msg) ROk None).

(** The request [{ id, method: "tools/call", params: { name, arguments: { args } } }]. *)
Definition call_request (i : Z) (n : string) (args : list string) : Request :=
  {| id := i; method := "tools/call"; name := n; arguments := Some args |}.

(** A decoder for a few lines, for running the listener: an empty line
    is skipped, [null] is the JSON null, [ls] and [nope] stand for a call
    of [safe_ls] and for a call of a name that is no tool, [ping] for a
    request with a method of its own, [list] for a [tools/list]; anything
    else does not parse. *)
Definition sample_decode (line : string) : Line' Request :=
  if String.eqb line "null" then LNull
  else if String.eqb line "ls" then LMsg (call_request 1 "safe_ls" ["-l"])
  else if String.eqb line "nope" then LMsg (call_request 2 "no_such_tool" [])
  else if String.eqb line "ping" then
    LMsg {| id := 3; method := "ping"; name := ""; arguments := None |}
  else if String.eqb line "list" then
    LMsg {| id := 4; method := "tools/list"; name := ""; arguments := None |}
  else LSkip.

(** A token [ensureOnly] throws on. *)
Definition foreign_flag (allowlist : list string) (a : string) : bool :=
  negb (has allowlist a) && startsWith a "-".

(** The host before anything was launched. *)
Definition boot (w : World) : Host := {| world := w; spawned := [] |}.

(** What the [try]/[catch] of the call handler answers once the tool's
    promise has settled. *)
Definition respond (i : Z) (r : Host * Completion RunResult) : Host * Response :=
  match r with
  | (h', Normal v) => (h', reply i (RCall (Some (out v))) None)
  | (h', Throw e) => (h', reply i RNull (Some e))
  end.

(** The processes launched on the way from host [h] to host [h']. *)
Definition launches (h h' : Host) : list SpawnCall :=
  drop (length (spawned h)) (spawned h').

(** The response carrying an error object with text [m]. *)
Definition error_reply (i : Z) (m : string) : Response :=
  {| rid := i; payload := PError (-32000) m |}.

Definition is_error (r : Response) : bool :=
  match payload r with PError _ _ => true | PResult _ => false end.

(** The operations whose body checks its arguments before [run]. *)
Definition guarded : list string :=
  ["safe_ls"; "safe_tar_list"; "safe_git"; "safe_find"; "safe_sed";
   "safe_unzip_list"].

(** The unguarded operations that do not hand the vector over as it is:
    [safe_stat] drops tokens, [safe_sha] may consume the first one, the
    other four take no argument. *)
Definition reshaping : list string :=
  ["safe_stat"; "safe_sha"; "safe_pwd"; "safe_id"; "safe_uptime";
   "safe_sw_vers"].

(** What each tool body does with its vector, told apart from the body
    itself, for comparison with it: the check it makes before [run], the
    program it names in [run], and the vector it hands to [run]. *)

(** The check: [ensureOnly] and [rejectForbidden] find no token to throw
    on, the first argument of [safe_git] is an allowed sub-command,
    [safe_unzip_list] has its [-l]; the other bodies check nothing. *)
Definition passes_validation (n : string) (args : list string) : bool :=
  if String.eqb n "safe_ls" then
    forallb (fun a => negb (foreign_flag ls_allowlist a)) args
  else if String.eqb n "safe_tar_list" then
    forallb (fun a => negb (foreign_flag tar_allowed a)) args
  else if String.eqb n "safe_sed" || String.eqb n "safe_find" then
    forallb (fun a => negb (has FORBIDDEN_TOKENS a)) args
  else if String.eqb n "safe_git" then has allowedSub (hd "" args)
  else if String.eqb n "safe_unzip_list" then has args "-l"
  else true.

(** The program: the key without its [safe_], but [tar] and [unzip] for
    the two listing operations, and for [safe_sha] the first argument when
    it is one of [sha_tools], [sha256sum] otherwise. *)
Definition underlying_command (n : string) (args : list string) : string :=
  if String.eqb n "safe_tar_list" then "tar"
  else if String.eqb n "safe_unzip_list" then "unzip"
  else if String.eqb n "safe_sha" then
    match args with
    | tool :: _ => if has sha_tools tool then tool else "sha256sum"
    | [] => "sha256sum"
    end
  else substring 5 (String.length n - 5) n.

(** The vector: the caller's, as it is; but none for the four operations
    that take no argument, the caller's without its [--] tokens for
    [safe_stat], and the caller's without its first token for [safe_sha]
    when that token names the tool. *)
Definition vector_passed (n : string) (args : list string) : list string :=
  if has ["safe_pwd"; "safe_id"; "safe_uptime"; "safe_sw_vers"] n then []
  else if String.eqb n "safe_stat" then
    List.filter (fun a => negb (startsWith a "--")) args
  else if String.eqb n "safe_sha" then
    match args with
    | tool :: rest => if has sha_tools tool then rest else args
    | [] => []
    end
  else args.

(** The two ways a tool body can end: it throws before launching
    anything, or it hands over to [run]. *)
Definition refuses (f : M RunResult) (e : JSError) : Prop :=
  forall h, f h = (h, Throw e).

Definition proceeds (f : M RunResult) (cmd : string) (args : list string) : Prop :=
  forall h, f h = run cmd args h.

(** ** The ['data'] listener

    The listener is an [async] function over the module-level [buf].  It
    runs without interruption up to an [await]; there it is set aside
    until the awaited promise has settled, and meanwhile other invocations
    of it, started by later chunks or resumed in their turn, run the same
    loop on the same [buf].  So the unit that runs atomically is not an
    invocation but a run of the loop: from the arrival of a chunk, or from
    the settling of an awaited promise, to the next [await], to the
    [return], to a raise, or to the point where [buf] holds no complete
    line.  Decoding a line ([line.trim()] and [JSON.parse]) is a
    parameter. *)

(** The request is one the loop [return]s on: a call of a name that
    [tools[name]] does not resolve. *)
Definition stops (msg : Request) : bool :=
  String.eqb (method msg) "tools/call" && negb (truthy (get tools (name msg))).

(** The request is one the loop [await]s on: a call of a name that
    resolves to a tool (an [async] function, whose promise is awaited also
    when its body throws) or to an inherited function that returns
    ([constructor], [toString]), whose value is awaited.  The other
    inherited functions and the prototype object throw at the call, inside
    the [try] and before anything is awaited: such a call is answered at
    once, like the requests of the other methods. *)
Definition suspends (msg : Request) : bool :=
  String.eqb (method msg) "tools/call" &&
  match get tools (name msg) with
  | PTool _ => true
  | PBuiltin b => String.eqb b "constructor" || String.eqb b "toString"
  | PPrototype | PUndefined => false
  end.

(** The server between two runs of the loop: the shared [buf], the host,
    what was written to stdout, the invocations set aside at their [await]
    (each with the response it writes when it resumes: [handle] launches
    the process at the call and tells how its promise settles), and how the
    last run ended. *)
Record Process := {
  buf : string;
  host : Host;
  written : list Response;
  awaited : list Response;
  last : Exit
}.

(** [while ((idx = buf.indexOf("\n")) >= 0) { ... }], up to where it is
    left.  The line is taken off [buf] before it is decoded.  At an
    [await] the call has been made (the process, if any, is launched) and
    nothing is written yet. *)
Function loop (decode : string -> Line' Request)
    (b : string) (h : Host) (out aw : list Response)
    {measure String.length b} : Process :=
  match indexOf newline b with
  | None => {| buf := b; host := h; written := out; awaited := aw; last := Drained |}
  | Some idx =>
      match decode (slice b 0 idx) with
      | LSkip => loop decode (slice b (idx + 1) (String.length b)) h out aw
      | LNull =>
          {| buf := slice b (idx + 1) (String.length b);
             host := h; written := out; awaited := aw; last := Raised |}
      | LMsg msg =>
          match handle msg h with
          | (h', r) =>
              if suspends msg
              then {| buf := slice b (idx + 1) (String.length b);
                      host := h'; written := out; awaited := (aw ++ [r])%list;
                      last := Awaiting |}
              else if stops msg
              then {| buf := slice b (idx + 1) (String.length b);
                      host := h'; written := (out ++ [r])%list; awaited := aw;
                      last := Returned |}
              else loop decode (slice b (idx + 1) (String.length b)) h'
                        (out ++ [r])%list aw
          end
      end
  end.
Proof.
  all: intros;
    match goal with E : indexOf _ _ = Some _ |- _ => apply indexOf_lt in E end;
    unfold slice; rewrite length_substring; lia.
Defined.

(** What happens to the server between two runs of the loop: stdin emits
    a chunk, or the promise awaited by the [k]-th invocation set aside
    settles.  The order of these events is the host's: how long a launched
    process takes is not the server's to say. *)
Inductive Event :=
| Data (chunk : string)
| Settled (k : nat).

(** [STDIN.on("data", async (chunk) => { buf += chunk; while ... })]: a
    new invocation starts. *)
Definition on_data (decode : string -> Line' Request) (chunk : string)
    (p : Process) : Process :=
  loop decode (buf p ++ chunk) (host p) (written p) (awaited p).

(** An invocation resumes behind its [await]: it writes its response,
    [continue]s, and so runs the loop on [buf] as it is by then. *)
Definition on_settled (decode : string -> Line' Request) (k : nat)
    (p : Process) : Process :=
  match awaited p !! k with
  | Some r => loop decode (buf p) (host p) (written p ++ [r])%list (delete k (awaited p))
  | None => p
  end.

(** A raise leaves the listener's promise rejected with no handler: the
    process ends (exit code 1, the default since Node 15), and nothing
    happens to it any more. *)
Definition on_event (decode : string -> Line' Request) (e : Event)
    (p : Process) : Process :=
  match last p with
  | Raised => p
  | _ =>
      match e with
      | Data chunk => on_data decode chunk p
      | Settled k => on_settled decode k p
      end
  end.

Definition run_events (decode : string -> Line' Request) (es : list Event)
    (p : Process) : Process :=
  fold_left (fun p e => on_event decode e p) es p.

(** The server once the script has been loaded: nothing read, nothing
    launched, nothing written. *)
Definition started (w : World) : Process :=
  {| buf := EmptyString; host := boot w; written := []; awaited := []; last := Drained |}.

(** The requests among some lines. *)
Definition requests (decode : string -> Line' Request) (lines : list string) : list Request :=
  omap (fun line => match decode line with LMsg msg => Some msg | _ => None end) lines.

(** The responses to some requests, each handled on host [h]. *)
Definition answers (h : Host) (msgs : list Request) : list Response :=
  map (fun msg => (handle msg h).2) msgs.

(** Lines, each followed by its terminator. *)
Definition join_lines (lines : list string) : string :=
  fold_right (fun line s => line ++ String newline s) EmptyString lines.

(** A line the loop goes past without leaving: it is skipped, or it holds
    a request that the loop neither returns nor awaits on. *)
Definition passes (decode : string -> Line' Request) (line : string) : Prop :=
  indexOf newline line = None /\
  match decode line with
  | LSkip => True
  | LNull => False
  | LMsg msg => stops msg = false /\ suspends msg = false
  end.

(** The programs named in the table: the first argument of every [run]
    call of a tool body ([safe_sha] names one of [sha_tools]). *)
Definition programs : list string :=
  (["ls"; "pwd"; "stat"; "file"; "cat"; "head"; "tail"; "less"; "more";
    "grep"; "awk"; "sed"; "cut"; "paste"; "tr"; "sort"; "uniq"; "fmt";
    "fold"; "column"; "wc"; "cksum"] ++ sha_tools ++
   ["tar"; "zipinfo"; "unzip"; "du"; "df"; "env"; "id"; "uname"; "date";
    "ps"; "uptime"; "find"; "git"; "jq"; "yq"; "hexdump"; "xxd"; "od";
    "tree"; "sw_vers"])%list.

(** * Properties *)

Lemma has_true s a : has s a = true <-> a ∈ s.
Proof. unfold has. apply bool_decide_eq_true. Qed.

Lemma has_false s a : has s a = false <-> a ∉ s.
Proof. unfold has. apply bool_decide_eq_false. Qed.

Lemma rejectForbidden_find argv h :
  rejectForbidden argv h =
  match List.find (has FORBIDDEN_TOKENS) argv with
  | Some a => (h, Throw (Error ("forbidden argument: " ++ a)))
  | None => (h, Normal tt)
  end.
Proof.
  induction argv as [|a argv IH]; simpl; [reflexivity|].
  destruct (has FORBIDDEN_TOKENS a); [reflexivity|apply IH].
Qed.

Lemma ensureOnly_find argv allowlist h :
  ensureOnly argv allowlist h =
  match List.find (foreign_flag allowlist) argv with
  | Some a => (h, Throw (Error ("flag not allowed here: " ++ a)))
  | None => (h, Normal tt)
  end.
Proof.
  induction argv as [|a argv IH]; simpl; [reflexivity|].
  unfold foreign_flag at 1.
  destruct (negb (has allowlist a) && startsWith a "-"); [reflexivity|apply IH].
Qed.

(** Filtering the flag-shaped tokens first does not change the first
    foreign flag. *)
Lemma find_foreign_filter allowlist args :
  List.find (foreign_flag allowlist) (List.filter (fun a => startsWith a "-") args)
  = List.find (foreign_flag allowlist) args.
Proof.
  induction args as [|a args IH]; simpl; [reflexivity|].
  unfold foreign_flag at 2.
  destruct (startsWith a "-") eqn:E; simpl.
  - unfold foreign_flag at 1. rewrite E, IH. reflexivity.
  - rewrite andb_false_r. apply IH.
Qed.

(** [List.find] splits the list at its hit. *)
Lemma find_Some_split {A} (p : A -> bool) l b :
  List.find p l = Some b ->
  exists pre post, l = (pre ++ b :: post)%list /\ p b = true /\ Forall (fun x => p x = false) pre.
Proof.
  induction l as [|x l IH]; simpl; [discriminate|].
  destruct (p x) eqn:E.
  - intros [= ->]. exists [], l. auto.
  - intros Hf. destruct (IH Hf) as (pre & post & -> & Hb & Hpre).
    exists (x :: pre), post. auto.
Qed.

Lemma find_None_Forall {A} (p : A -> bool) l :
  List.find p l = None <-> Forall (fun x => p x = false) l.
Proof.
  induction l as [|x l IH]; simpl.
  - split; auto.
  - destruct (p x) eqn:E.
    + split; [discriminate|]. intros HF. inversion HF; congruence.
    + rewrite IH. split; [auto|]. intros HF. inversion HF; auto.
Qed.

Lemma find_is_Some {A} (p : A -> bool) l a :
  a ∈ l -> p a = true -> exists b, List.find p l = Some b.
Proof.
  intros Hin Hp. destruct (List.find p l) eqn:E; [eauto|].
  apply find_None_Forall in E. rewrite Forall_forall in E.
  specialize (E a Hin). congruence.
Qed.

(** [run] always launches exactly one process, without a shell. *)
Lemma run_spawned cmd args h :
  spawned (run cmd args h).1 =
  (spawned h ++ [{| file := cmd; argv := args; shell := false |}])%list.
Proof.
  unfold run. destruct (spawn _ _) as [w ev].
  destruct ev as [e|[[|p|p]|] o e]; reflexivity.
Qed.

Lemma launches_refl h : launches h h = [].
Proof. unfold launches. apply drop_all. Qed.

Lemma launches_run cmd args h :
  launches h (run cmd args h).1 = [{| file := cmd; argv := args; shell := false |}].
Proof. unfold launches. rewrite run_spawned. apply drop_app_length. Qed.

Lemma respond_host i r : (respond i r).1 = r.1.
Proof. destruct r as [h' [v|e]]; reflexivity. Qed.

(** ** The tools, one equation each *)

Lemma allowlist_tool_eq allowlist cmd args h :
  (ensureOnly (List.filter (fun a => startsWith a "-") args) allowlist >> run cmd args) h =
  match List.find (foreign_flag allowlist) args with
  | Some a => (h, Throw (Error ("flag not allowed here: " ++ a)))
  | None => run cmd args h
  end.
Proof.
  unfold bind. rewrite ensureOnly_find, find_foreign_filter.
  destruct (List.find _ args); reflexivity.
Qed.

Lemma denylist_tool_eq cmd args h :
  (rejectForbidden args >> run cmd args) h =
  match List.find (has FORBIDDEN_TOKENS) args with
  | Some a => (h, Throw (Error ("forbidden argument: " ++ a)))
  | None => run cmd args h
  end.
Proof.
  unfold bind. rewrite rejectForbidden_find.
  destruct (List.find _ args); reflexivity.
Qed.

Lemma safe_git_eq args h :
  safe_git (Some args) h =
  if has allowedSub (hd "" args)
  then run "git" args h
  else (h, Throw (Error ("git subcommand not allowed: " ++ hd "" args))).
Proof.
  unfold safe_git. change (default [] (Some args)) with args. cbv beta zeta.
  replace (match args with s :: _ => s | [] => "" end) with (hd "" args)
    by (destruct args; reflexivity).
  destruct (has allowedSub (hd "" args)); reflexivity.
Qed.

Lemma safe_unzip_list_eq args h :
  safe_unzip_list (Some args) h =
  if has args "-l" then run "unzip" args h
  else (h, Throw (Error "safe_unzip_list requires -l (list) mode")).
Proof.
  unfold safe_unzip_list. change (default [] (Some args)) with args. cbv beta zeta.
  destruct (has args "-l"); reflexivity.
Qed.

Lemma sha_sum_re_true tool :
  sha_sum_re tool = true <->
  tool ∈ ["sha1sum"; "sha224sum"; "sha256sum"; "sha384sum"; "sha512sum"].
Proof.
  clear builtin_message.
  unfold sha_sum_re. cbv beta iota delta [existsb String.append].
  rewrite !orb_true_iff, !String.eqb_eq, !elem_of_cons, elem_of_nil.
  intuition discriminate.
Qed.

Lemma safe_sha_eq args h :
  safe_sha (Some args) h =
  match args with
  | [] => run "sha256sum" [] h
  | tool :: rest =>
      if has sha_tools tool then run tool rest h else run "sha256sum" args h
  end.
Proof.
  clear builtin_message.
  destruct args as [|tool rest]; [reflexivity|].
  unfold safe_sha. change (default [] (Some (tool :: rest))) with (tool :: rest).
  cbn [length Nat.eqb]. cbv beta iota zeta.
  destruct (has sha_tools tool) eqn:Hh.
  - apply has_true in Hh. unfold sha_tools in Hh.
    rewrite !elem_of_cons, elem_of_nil in Hh.
    destruct Hh as [->|[->|[->|[->|[->|[->|[->|[->|[]]]]]]]]]; reflexivity.
  - apply has_false in Hh. unfold sha_tools in Hh.
    rewrite !not_elem_of_cons in Hh.
    destruct Hh as (H1 & H2 & H3 & H4 & H5 & H6 & H7 & H8 & _).
    destruct (sha_sum_re tool) eqn:Hre.
    { apply sha_sum_re_true in Hre. rewrite !elem_of_cons, elem_of_nil in Hre.
      tauto. }
    apply String.eqb_neq in H6, H7, H8. rewrite H6, H7, H8. reflexivity.
Qed.

(** ** Every tool either refuses or launches one process *)

Lemma filter_sublist {A} (p : A -> bool) (l : list A) : List.filter p l `sublist_of` l.
Proof.
  induction l as [|x l IH]; simpl; [constructor|].
  destruct (p x); [apply sublist_skip|apply sublist_cons]; exact IH.
Qed.

Ltac split_table H :=
  unfold tools in H;
  repeat (apply elem_of_cons in H as [H|H]; [injection H as -> ->|]);
  try (apply elem_of_nil in H; contradiction).

Lemma tool_reads_args n f a : (n, f) ∈ tools -> f a = f (Some (default [] a)).
Proof. intros H. split_table H; destruct a; reflexivity. Qed.

Lemma tool_shape n f args :
  (n, f) ∈ tools ->
  (exists m, String.eqb m "" = false /\ refuses (f (Some args)) (Error m)) \/
  (exists cmd argv', argv' `sublist_of` args /\ proceeds (f (Some args)) cmd argv').
Proof.
  intros H.
  assert (Hrun : forall cmd argv' (g : M RunResult),
            argv' `sublist_of` args -> (forall h, g h = run cmd argv' h) ->
            (exists m, String.eqb m "" = false /\ refuses g (Error m)) \/
            (exists cmd argv', argv' `sublist_of` args /\ proceeds g cmd argv')).
  { intros cmd argv' g Hs Hg. right. exists cmd, argv'. split; assumption. }
  assert (Hfind : forall (p : string -> bool) (text : string -> string) cmd (g : M RunResult),
            (forall a, String.eqb (text a) "" = false) ->
            (forall h, g h = match List.find p args with
                             | Some a => (h, Throw (Error (text a)))
                             | None => run cmd args h
                             end) ->
            (exists m, String.eqb m "" = false /\ refuses g (Error m)) \/
            (exists cmd argv', argv' `sublist_of` args /\ proceeds g cmd argv')).
  { intros p text cmd g Hne Hg. destruct (List.find p args) as [b|].
    - left. eexists. split; [|exact Hg]. apply Hne.
    - right. exists cmd, args. split; [reflexivity|exact Hg]. }
  split_table H;
    try (eapply (Hrun _ args); [reflexivity|intros; reflexivity]);
    try (eapply (Hrun _ []); [apply sublist_nil_l|intros; reflexivity]).
  - (* safe_ls *)
    eapply (Hfind _ (fun a => "flag not allowed here: " ++ a)); [reflexivity|].
    intros h. unfold safe_ls. apply allowlist_tool_eq.
  - (* safe_stat *)
    apply (Hrun "stat" (List.filter (fun a => negb (startsWith a "--")) args));
      [apply filter_sublist|intros; reflexivity].
  - (* safe_sed *)
    eapply (Hfind _ (fun a => "forbidden argument: " ++ a)); [reflexivity|].
    intros h. unfold safe_sed. apply denylist_tool_eq.
  - (* safe_sha *)
    destruct args as [|tool rest].
    + apply (Hrun "sha256sum" []); [reflexivity|intros; reflexivity].
    + destruct (has sha_tools tool) eqn:E.
      * eapply (Hrun tool rest).
        { apply sublist_cons. reflexivity. }
        intros h. rewrite safe_sha_eq, E. reflexivity.
      * eapply (Hrun "sha256sum" (tool :: rest)); [reflexivity|].
        intros h. rewrite safe_sha_eq, E. reflexivity.
  - (* safe_tar_list *)
    eapply (Hfind _ (fun a => "flag not allowed here: " ++ a)); [reflexivity|].
    intros h. unfold safe_tar_list. apply allowlist_tool_eq.
  - (* safe_unzip_list *)
    destruct (has args "-l") eqn:E.
    + eapply (Hrun "unzip" args); [reflexivity|].
      intros h. rewrite safe_unzip_list_eq, E. reflexivity.
    + left. eexists. split; [|intros h; rewrite safe_unzip_list_eq, E; reflexivity].
      reflexivity.
  - (* safe_find *)
    eapply (Hfind _ (fun a => "forbidden argument: " ++ a)); [reflexivity|].
    intros h. unfold safe_find. apply denylist_tool_eq.
  - (* safe_git *)
    destruct (has allowedSub (hd "" args)) eqn:E.
    + eapply (Hrun "git" args); [reflexivity|].
      intros h. rewrite safe_git_eq, E. reflexivity.
    + left. eexists. split; [|intros h; rewrite safe_git_eq, E; reflexivity].
      reflexivity.
Qed.

(** ** The call handler *)

Lemma own_property_elem t n f : own_property t n = Some f -> (n, f) ∈ t.
Proof.
  induction t as [|[k g] t IH]; simpl; [discriminate|].
  destruct (String.eqb k n) eqn:E.
  - apply String.eqb_eq in E. intros [= ->]. subst. left.
  - intros Hf. right. auto.
Qed.

Lemma get_tool n f : (n, f) ∈ tools -> get tools n = PTool f.
Proof. intros H. split_table H; reflexivity. Qed.

Lemma get_PTool_elem n f : get tools n = PTool f -> (n, f) ∈ tools.
Proof.
  unfold get. destruct (own_property tools n) as [g|] eqn:E.
  - intros [= ->]. apply own_property_elem, E.
  - destruct (has _ n); [discriminate|]. destruct (String.eqb n "__proto__"); discriminate.
Qed.

Lemma tools_keys_NoDup : NoDup (Object_keys tools).
Proof. apply (bool_decide_unpack _). vm_compute. reflexivity. Qed.

Lemma handle_call i n a h :
  handle {| id := i; method := "tools/call"; name := n; arguments := a |} h =
  match get tools n with
  | PTool f => respond i (f a h)
  | PBuiltin b =>
      if String.eqb b "constructor" || String.eqb b "toString"
      then (h, reply i (RCall None) None)
      else (h, reply i RNull (Some (TypeError (builtin_message b))))
  | PPrototype => (h, reply i RNull (Some (TypeError "fn is not a function")))
  | PUndefined => (h, reply i RNull (Some (Error "unknown tool")))
  end.
Proof.
  unfold handle. cbn [id method name arguments].
  change (String.eqb "tools/call" "initialize") with false.
  change (String.eqb "tools/call" "tools/list") with false.
  change (String.eqb "tools/call" "tools/call") with true.
  cbv beta iota zeta.
  destruct (get tools n) as [f|b| |]; cbn [truthy negb call_property].
  - unfold bind, respond, ret. destruct (f a h) as [h' [v|e]]; reflexivity.
  - destruct (String.eqb b "constructor" || String.eqb b "toString"); reflexivity.
  - reflexivity.
  - reflexivity.
Qed.

Lemma handle_tool i n f args h :
  (n, f) ∈ tools ->
  handle (call_request i n args) h = respond i (f (Some args) h).
Proof. intros H. unfold call_request. rewrite handle_call, (get_tool n f H). reflexivity. Qed.

Lemma respond_throw i m h :
  String.eqb m "" = false ->
  respond i (h, Throw (Error m)) = (h, error_reply i m).
Proof. intros E. unfold respond, reply, error_reply. cbn [message_of]. rewrite E. reflexivity. Qed.

(** The first token [ensureOnly] stops at, when some token is a flag
    outside the allowlist. *)
Lemma first_foreign_flag allowlist args a :
  a ∈ args -> startsWith a "-" = true -> a ∉ allowlist ->
  exists b pre post,
    args = (pre ++ b :: post)%list /\
    Forall (fun x => foreign_flag allowlist x = false) pre /\
    startsWith b "-" = true /\ (b ∉ allowlist) /\
    List.find (foreign_flag allowlist) args = Some b.
Proof.
  intros Hin Hflag Hout.
  destruct (find_is_Some (foreign_flag allowlist) args a Hin) as [b Hb].
  { unfold foreign_flag. apply has_false in Hout. rewrite Hout, Hflag. reflexivity. }
  destruct (find_Some_split _ _ _ Hb) as (pre & post & -> & Hp & Hpre).
  exists b, pre, post. unfold foreign_flag in Hp.
  apply andb_true_iff in Hp as [Hp1 Hp2]. apply negb_true_iff, has_false in Hp1.
  auto.
Qed.

Lemma handle_allowlist i n cmd allowlist args h :
  (n, cmd, allowlist) ∈ [("safe_ls", "ls", ls_allowlist); ("safe_tar_list", "tar", tar_allowed)] ->
  handle (call_request i n args) h =
  match List.find (foreign_flag allowlist) args with
  | Some b => (h, error_reply i ("flag not allowed here: " ++ b))
  | None => respond i (run cmd args h)
  end.
Proof.
  intros H. rewrite !elem_of_cons, elem_of_nil in H.
  destruct H as [[= -> -> ->]|[[= -> -> ->]|[]]].
  - rewrite (handle_tool i "safe_ls" safe_ls) by (apply get_PTool_elem; reflexivity).
    unfold safe_ls. change (default [] (Some args)) with args. cbv zeta.
    rewrite allowlist_tool_eq. destruct (List.find _ args); [|reflexivity].
    apply respond_throw. reflexivity.
  - rewrite (handle_tool i "safe_tar_list" safe_tar_list) by (apply get_PTool_elem; reflexivity).
    unfold safe_tar_list. change (default [] (Some args)) with args. cbv zeta.
    rewrite allowlist_tool_eq. destruct (List.find _ args); [|reflexivity].
    apply respond_throw. reflexivity.
Qed.

Lemma handle_denylist i n cmd args h :
  (n, cmd) ∈ [("safe_find", "find"); ("safe_sed", "sed")] ->
  handle (call_request i n args) h =
  match List.find (has FORBIDDEN_TOKENS) args with
  | Some b => (h, error_reply i ("forbidden argument: " ++ b))
  | None => respond i (run cmd args h)
  end.
Proof.
  intros H. rewrite !elem_of_cons, elem_of_nil in H.
  destruct H as [[= -> ->]|[[= -> ->]|[]]].
  - rewrite (handle_tool i "safe_find" safe_find) by (apply get_PTool_elem; reflexivity).
    unfold safe_find. change (default [] (Some args)) with args. cbv zeta.
    rewrite denylist_tool_eq. destruct (List.find _ args); [|reflexivity].
    apply respond_throw. reflexivity.
  - rewrite (handle_tool i "safe_sed" safe_sed) by (apply get_PTool_elem; reflexivity).
    unfold safe_sed. change (default [] (Some args)) with args. cbv zeta.
    rewrite denylist_tool_eq. destruct (List.find _ args); [|reflexivity].
    apply respond_throw. reflexivity.
Qed.

Lemma handle_git i args h :
  handle (call_request i "safe_git" args) h =
  if has allowedSub (hd "" args)
  then respond i (run "git" args h)
  else (h, error_reply i ("git subcommand not allowed: " ++ hd "" args)).
Proof.
  rewrite (handle_tool i "safe_git" safe_git) by (apply get_PTool_elem; reflexivity).
  rewrite safe_git_eq. destruct (has allowedSub (hd "" args)); [reflexivity|].
  apply respond_throw. reflexivity.
Qed.

Lemma handle_unzip_list i args h :
  handle (call_request i "safe_unzip_list" args) h =
  if has args "-l"
  then respond i (run "unzip" args h)
  else (h, error_reply i "safe_unzip_list requires -l (list) mode").
Proof.
  rewrite (handle_tool i "safe_unzip_list" safe_unzip_list)
    by (apply get_PTool_elem; reflexivity).
  rewrite safe_unzip_list_eq. destruct (has args "-l"); reflexivity.
Qed.

Lemma launches_respond_run i cmd args h :
  launches h (respond i (run cmd args h)).1 =
  [{| file := cmd; argv := args; shell := false |}].
Proof. rewrite respond_host. apply launches_run. Qed.

(** Every request is answered in one of two ways: with a reply that does
    not depend on the host and leaves it alone, or by settling one [run]
    of a command on tokens taken, in order, from the request. *)
Lemma handle_shape msg :
  (exists r, forall h, handle msg h = (h, r)) \/
  (exists cmd argv',
      argv' `sublist_of` default [] (arguments msg) /\
      forall h, handle msg h = respond (id msg) (run cmd argv' h)).
Proof.
  destruct msg as [i m n a].
  destruct (String.eqb m "tools/call") eqn:Em.
  - apply String.eqb_eq in Em. subst m.
    destruct (get tools n) as [f|b| |] eqn:G.
    + apply get_PTool_elem in G.
      destruct (tool_shape n f (default [] a) G) as [(t & Ht & Hr)|(cmd & argv' & Hs & Hp)].
      * left. exists (error_reply i t). intros h.
        rewrite handle_call, (get_tool n f G), (tool_reads_args n f a G), Hr.
        apply respond_throw, Ht.
      * right. exists cmd, argv'. split; [exact Hs|]. intros h.
        cbn [id]. rewrite handle_call, (get_tool n f G), (tool_reads_args n f a G), Hp.
        reflexivity.
    + left.
      exists (if String.eqb b "constructor" || String.eqb b "toString"
              then reply i (RCall None) None
              else reply i RNull (Some (TypeError (builtin_message b)))).
      intros h. rewrite handle_call, G.
      destruct (String.eqb b "constructor" || String.eqb b "toString"); reflexivity.
    + left. eexists. intros h. rewrite handle_call, G. reflexivity.
    + left. eexists. intros h. rewrite handle_call, G. reflexivity.
  - left. unfold handle. cbn [id method name arguments]. rewrite Em.
    destruct (String.eqb m "initialize"); [eexists; intros h; reflexivity|].
    destruct (String.eqb m "tools/list"); eexists; intros h; reflexivity.
Qed.

Lemma tool_functional n f g : (n, f) ∈ tools -> (n, g) ∈ tools -> f = g.
Proof.
  intros Hf Hg. apply get_tool in Hf, Hg. rewrite Hf in Hg. injection Hg. auto.
Qed.

Lemma get_not_inherited n :
  n ∉ "__proto__" :: Object_prototype_functions ->
  (exists f, (n, f) ∈ tools /\ get tools n = PTool f) \/ get tools n = PUndefined.
Proof.
  intros Hn. apply not_elem_of_cons in Hn as [Hp Hf].
  destruct (get tools n) as [f|b| |] eqn:G.
  - left. exists f. split; [apply get_PTool_elem, G|reflexivity].
  - exfalso. unfold get in G. destruct (own_property tools n); [discriminate|].
    destruct (has Object_prototype_functions n) eqn:E.
    + apply has_true in E. contradiction.
    + destruct (String.eqb n "__proto__"); discriminate.
  - exfalso. unfold get in G. destruct (own_property tools n); [discriminate|].
    destruct (has Object_prototype_functions n); [discriminate|].
    destruct (String.eqb n "__proto__") eqn:E; [|discriminate].
    apply String.eqb_eq in E. contradiction.
  - right. reflexivity.
Qed.

(** The response to a tool that hands over to [run], spelled out on what
    the launched process reports. *)
Lemma respond_run i cmd args h :
  respond i (run cmd args h) =
  let c := {| file := cmd; argv := args; shell := false |} in
  ({| world := (spawn c (world h)).1; spawned := spawned h ++ [c] |},
   match (spawn c (world h)).2 with
   | EvError e => reply i RNull (Some e)
   | EvClose (Some 0%Z) o e => reply i (RCall (Some o)) None
   | EvClose cd o e =>
       error_reply i (if String.eqb e "" then "exit " ++ show_code cd else e)
   end).
Proof.
  unfold run. cbv zeta. destruct (spawn _ (world h)) as [w ev]. cbn [fst snd].
  assert (Hfail : forall cd e0,
    reply i RNull (Some (Error (if String.eqb e0 "" then "exit " ++ show_code cd else e0)))
    = error_reply i (if String.eqb e0 "" then "exit " ++ show_code cd else e0)).
  { intros cd e0. unfold reply, error_reply. cbn [message_of].
    destruct (String.eqb e0 "") eqn:E; [reflexivity|]. rewrite E. reflexivity. }
  destruct ev as [e|[[|q|q]|] o e]; cbn [respond]; try rewrite Hfail; reflexivity.
Qed.

(** * The claims *)

(** C2.  For the two operations governed by a flag allowlist, [safe_ls]
    and [safe_tar_list], a request whose argument vector holds a token
    that begins with [-] and is outside the operation's allowlist is
    answered with an error object whose message is
    ["flag not allowed here: "] followed by the first such token of the
    vector, and the host is left as it was: no process is launched. *)
Theorem allowlist_rejects_foreign_flag i n cmd allowlist args a h :
  (n, cmd, allowlist) ∈
    [("safe_ls", "ls", ls_allowlist); ("safe_tar_list", "tar", tar_allowed)] ->
  a ∈ args -> startsWith a "-" = true -> a ∉ allowlist ->
  exists b pre post,
    args = (pre ++ b :: post)%list /\
    Forall (fun x => foreign_flag allowlist x = false) pre /\
    startsWith b "-" = true /\ (b ∉ allowlist) /\
    handle (call_request i n args) h =
      (h, error_reply i ("flag not allowed here: " ++ b)) /\
    launches h (handle (call_request i n args) h).1 = [].
Proof.
  intros Hn Hin Hflag Hout.
  destruct (first_foreign_flag allowlist args a Hin Hflag Hout)
    as (b & pre & post & Hargs & Hpre & Hb1 & Hb2 & Hfind).
  exists b, pre, post. repeat (split; [assumption|]).
  rewrite (handle_allowlist i n cmd allowlist args h Hn), Hfind.
  split; [reflexivity|apply launches_refl].
Qed.

(** C3.  For [safe_find] and [safe_sed]: a request whose argument vector
    holds, at any position and among any other tokens, a token equal to
    one of [-exec], [-ok], [-delete], [-i], [--in-place] is answered with
    the error ["forbidden argument: "] followed by a forbidden token of
    the vector, and nothing is launched; a request none of whose tokens
    is equal to a forbidden one (whatever the tokens contain) launches the
    command on the whole vector. *)
Theorem denylist_rejects_exact_tokens i n cmd args h :
  (n, cmd) ∈ [("safe_find", "find"); ("safe_sed", "sed")] ->
  (forall a, a ∈ args -> a ∈ FORBIDDEN_TOKENS ->
     exists b, b ∈ args /\ b ∈ FORBIDDEN_TOKENS /\
       handle (call_request i n args) h =
         (h, error_reply i ("forbidden argument: " ++ b)) /\
       launches h (handle (call_request i n args) h).1 = []) /\
  (Forall (fun a => a ∉ FORBIDDEN_TOKENS) args ->
     handle (call_request i n args) h = respond i (run cmd args h) /\
     launches h (handle (call_request i n args) h).1 =
       [{| file := cmd; argv := args; shell := false |}]).
Proof.
  intros Hn. rewrite (handle_denylist i n cmd args h Hn). split.
  - intros a Hin Hf.
    destruct (find_is_Some (has FORBIDDEN_TOKENS) args a Hin) as [b Hb].
    { apply has_true, Hf. }
    rewrite Hb. destruct (find_Some_split _ _ _ Hb) as (pre & post & -> & Hp & _).
    exists b. split; [|split; [apply has_true, Hp|split; [reflexivity|apply launches_refl]]].
    apply elem_of_app. right. left.
  - intros Hall.
    assert (E : List.find (has FORBIDDEN_TOKENS) args = None).
    { apply find_None_Forall. eapply Forall_impl; [exact Hall|].
      intros x Hx. apply has_false, Hx. }
    rewrite E. split; [reflexivity|apply launches_respond_run].
Qed.

(** C4.  [safe_git] launches [git], on the whole argument vector, exactly
    when the first argument is one of the twelve enumerated sub-commands;
    for any other first argument, and for the empty vector, the request is
    answered with the error ["git subcommand not allowed: "] followed by
    that argument (nothing for the empty vector) and nothing is
    launched. *)
Theorem safe_git_subcommand_gate i args h :
  let r := handle (call_request i "safe_git" args) h in
  ((exists sub rest, args = sub :: rest /\ sub ∈ allowedSub) ->
     r = respond i (run "git" args h) /\
     launches h r.1 = [{| file := "git"; argv := args; shell := false |}]) /\
  (~ (exists sub rest, args = sub :: rest /\ sub ∈ allowedSub) ->
     r = (h, error_reply i ("git subcommand not allowed: " ++ hd "" args)) /\
     launches h r.1 = []).
Proof.
  intros r. subst r. rewrite handle_git.
  destruct (has allowedSub (hd "" args)) eqn:E.
  - split.
    + intros _. split; [reflexivity|apply launches_respond_run].
    + intros Hno. exfalso. apply Hno. apply has_true in E.
      destruct args as [|sub rest]; [|eauto].
      cbn [hd] in E. unfold allowedSub in E.
      rewrite !elem_of_cons, elem_of_nil in E. intuition discriminate.
  - split.
    + intros (sub & rest & -> & Hsub). apply has_false in E. contradiction.
    + intros _. split; [reflexivity|apply launches_refl].
Qed.

(** C10.  [safe_sha] never refuses: the empty vector launches
    [sha256sum] with no argument; a vector whose first token is one of the
    eight recognised tool names launches that tool on the remaining
    tokens; any other vector launches [sha256sum] on the whole vector,
    first token included. *)
Theorem safe_sha_never_rejects i args h :
  handle (call_request i "safe_sha" args) h =
  match args with
  | [] => respond i (run "sha256sum" [] h)
  | tool :: rest =>
      if has sha_tools tool
      then respond i (run tool rest h)
      else respond i (run "sha256sum" (tool :: rest) h)
  end.
Proof.
  rewrite (handle_tool i "safe_sha" safe_sha) by (apply get_PTool_elem; reflexivity).
  rewrite safe_sha_eq. destruct args as [|tool rest]; [reflexivity|].
  destruct (has sha_tools tool); reflexivity.
Qed.

Lemma find_None_forallb {A} (p : A -> bool) (l : list A) :
  List.find p l = None <-> forallb (fun a => negb (p a)) l = true.
Proof.
  induction l as [|x l IH]; cbn [List.find forallb]; [tauto|].
  destruct (p x); cbn [negb andb]; [split; discriminate|exact IH].
Qed.

Lemma handle_tool_args i n f a h :
  (n, f) ∈ tools ->
  handle {| id := i; method := "tools/call"; name := n; arguments := a |} h
  = respond i (f (Some (default [] a)) h).
Proof.
  intros H. rewrite handle_call, (get_tool n f H), (tool_reads_args n f a H). reflexivity.
Qed.

(** How a tool body is compared with its description: the body launches
    the described program on the described vector when the described check
    passes, and throws an [Error] with a message when it does not. *)
Lemma described_body i n args h r cmd v ok m :
  underlying_command n args = cmd ->
  vector_passed n args = v ->
  passes_validation n args = ok ->
  v `sublist_of` args ->
  (n ∉ reshaping -> v = args) ->
  (ok = true -> r = respond i (run cmd v h)) ->
  (ok = false -> r = respond i (h, Throw (Error m)) /\ String.eqb m "" = false) ->
  let c := {| file := underlying_command n args;
              argv := vector_passed n args;
              shell := false |} in
  (passes_validation n args = true ->
     r = respond i (run (file c) (argv c) h) /\ launches h r.1 = [c]) /\
  (passes_validation n args = false ->
     r.1 = h /\ launches h r.1 = [] /\ is_error r.2 = true) /\
  argv c `sublist_of` args /\
  (n ∉ reshaping -> argv c = args).
Proof.
  intros -> -> -> Hsub Hsame Hrun Hno c. subst c. cbn [file argv].
  repeat split; try assumption.
  - auto.
  - rewrite (Hrun H). apply launches_respond_run.
  - destruct (Hno H) as [-> Hm]. rewrite (respond_throw i m h Hm). reflexivity.
  - destruct (Hno H) as [-> Hm]. rewrite (respond_throw i m h Hm). apply launches_refl.
  - destruct (Hno H) as [-> Hm]. rewrite (respond_throw i m h Hm). reflexivity.
Qed.

(** C8.  The executor [run] launches the command it is given on the
    vector it is given, as a vector and without a shell.  And for every
    operation of the catalogue and every request calling it: when the
    argument vector passes the operation's check, exactly one process is
    launched, by [run]; it is the operation's program, it is launched
    without a shell, and its argument vector is the vector the operation
    passes, token for token: the caller's own vector for every operation
    but the six that reshape it, and always tokens of the caller's vector,
    unchanged and in their order.  When the vector does not pass, nothing
    is launched and the response is an error. *)
Theorem accepted_vector_is_launched_literally i n a h :
  n ∈ Object_keys tools ->
  let args := default [] a in
  let r := handle {| id := i; method := "tools/call"; name := n; arguments := a |} h in
  let c := {| file := underlying_command n args;
              argv := vector_passed n args;
              shell := false |} in
  (forall cmd v,
     launches h (run cmd v h).1 = [{| file := cmd; argv := v; shell := false |}]) /\
  (passes_validation n args = true ->
     r = respond i (run (file c) (argv c) h) /\ launches h r.1 = [c]) /\
  (passes_validation n args = false ->
     r.1 = h /\ launches h r.1 = [] /\ is_error r.2 = true) /\
  argv c `sublist_of` args /\
  (n ∉ reshaping -> argv c = args).
Proof.
  intros Hn args r c.
  apply list_elem_of_fmap in Hn as ([n' f] & -> & Hf). cbn [fst] in *.
  pose proof (handle_tool_args i n' f a h Hf) as Hh. fold args in Hh. fold r in Hh.
  clearbody r args. subst c.
  split; [intros cmd v; apply launches_run|].
  split_table Hf.
  all: try (eapply (described_body i _ args h r _ args true "-");
            [reflexivity|reflexivity|reflexivity|reflexivity|reflexivity
            |intros _; exact Hh|discriminate]).
  all: try (eapply (described_body i _ args h r _ [] true "-");
            [reflexivity|reflexivity|reflexivity|apply sublist_nil_l
            |intros H; exfalso; apply H; apply (bool_decide_unpack _); reflexivity
            |intros _; exact Hh|discriminate]).
  - (* safe_ls *)
    unfold safe_ls in Hh. change (default [] (Some args)) with args in Hh. cbv zeta in Hh.
    rewrite allowlist_tool_eq in Hh.
    eapply (described_body i _ args h r "ls" args _
              ("flag not allowed here: " ++ default "" (List.find (foreign_flag ls_allowlist) args)));
      [reflexivity|reflexivity|reflexivity|reflexivity|reflexivity| |].
    + intros Hok. apply find_None_forallb in Hok. rewrite Hok in Hh. exact Hh.
    + intros Hok. destruct (List.find (foreign_flag ls_allowlist) args) as [b|] eqn:E.
      * split; [exact Hh|reflexivity].
      * apply find_None_forallb in E. discriminate (eq_trans (eq_sym E) Hok).
  - (* safe_stat *)
    eapply (described_body i _ args h r "stat" _ true "-");
      [reflexivity|reflexivity|reflexivity|apply filter_sublist
      |intros H; exfalso; apply H; apply (bool_decide_unpack _); reflexivity
      |intros _; exact Hh|discriminate].
  - (* safe_sed *)
    unfold safe_sed in Hh. change (default [] (Some args)) with args in Hh. cbv zeta in Hh.
    rewrite denylist_tool_eq in Hh.
    eapply (described_body i _ args h r "sed" args _
              ("forbidden argument: " ++ default "" (List.find (has FORBIDDEN_TOKENS) args)));
      [reflexivity|reflexivity|reflexivity|reflexivity|reflexivity| |].
    + intros Hok. apply find_None_forallb in Hok. rewrite Hok in Hh. exact Hh.
    + intros Hok. destruct (List.find (has FORBIDDEN_TOKENS) args) as [b|] eqn:E.
      * split; [exact Hh|reflexivity].
      * apply find_None_forallb in E. discriminate (eq_trans (eq_sym E) Hok).
  - (* safe_sha *)
    rewrite safe_sha_eq in Hh.
    eapply (described_body i _ args h r
              (match args with
               | tool :: _ => if has sha_tools tool then tool else "sha256sum"
               | [] => "sha256sum"
               end)
              (match args with
               | tool :: rest => if has sha_tools tool then rest else args
               | [] => []
               end) true "-");
      [reflexivity|reflexivity|reflexivity| | | |discriminate].
    + destruct args as [|tool rest]; [constructor|].
      destruct (has sha_tools tool); [apply sublist_cons|]; reflexivity.
    + intros H; exfalso; apply H; apply (bool_decide_unpack _); reflexivity.
    + intros _. rewrite Hh. destruct args as [|tool rest]; [reflexivity|].
      destruct (has sha_tools tool); reflexivity.
  - (* safe_tar_list *)
    unfold safe_tar_list in Hh. change (default [] (Some args)) with args in Hh.
    cbv zeta in Hh. rewrite allowlist_tool_eq in Hh.
    eapply (described_body i _ args h r "tar" args _
              ("flag not allowed here: " ++ default "" (List.find (foreign_flag tar_allowed) args)));
      [reflexivity|reflexivity|reflexivity|reflexivity|reflexivity| |].
    + intros Hok. apply find_None_forallb in Hok. rewrite Hok in Hh. exact Hh.
    + intros Hok. destruct (List.find (foreign_flag tar_allowed) args) as [b|] eqn:E.
      * split; [exact Hh|reflexivity].
      * apply find_None_forallb in E. discriminate (eq_trans (eq_sym E) Hok).
  - (* safe_unzip_list *)
    rewrite safe_unzip_list_eq in Hh.
    eapply (described_body i _ args h r "unzip" args _
              "safe_unzip_list requires -l (list) mode");
      [reflexivity|reflexivity|reflexivity|reflexivity|reflexivity| |].
    + intros Hok. change (has args "-l" = true) in Hok. rewrite Hok in Hh. exact Hh.
    + intros Hok. change (has args "-l" = false) in Hok. rewrite Hok in Hh.
      split; [exact Hh|reflexivity].
  - (* safe_find *)
    unfold safe_find in Hh. change (default [] (Some args)) with args in Hh. cbv zeta in Hh.
    rewrite denylist_tool_eq in Hh.
    eapply (described_body i _ args h r "find" args _
              ("forbidden argument: " ++ default "" (List.find (has FORBIDDEN_TOKENS) args)));
      [reflexivity|reflexivity|reflexivity|reflexivity|reflexivity| |].
    + intros Hok. apply find_None_forallb in Hok. rewrite Hok in Hh. exact Hh.
    + intros Hok. destruct (List.find (has FORBIDDEN_TOKENS) args) as [b|] eqn:E.
      * split; [exact Hh|reflexivity].
      * apply find_None_forallb in E. discriminate (eq_trans (eq_sym E) Hok).
  - (* safe_git *)
    rewrite safe_git_eq in Hh.
    eapply (described_body i _ args h r "git" args _
              ("git subcommand not allowed: " ++ hd "" args));
      [reflexivity|reflexivity|reflexivity|reflexivity|reflexivity| |].
    + intros Hok. change (has allowedSub (hd "" args) = true) in Hok.
      rewrite Hok in Hh. exact Hh.
    + intros Hok. change (has allowedSub (hd "" args) = false) in Hok.
      rewrite Hok in Hh. split; [exact Hh|reflexivity].
Qed.


(** C9.  The decision taken for a request is the same from any two hosts,
    whatever was launched before and whatever state the system is in: the
    same processes are launched (same command, same filtered arguments),
    and when none is launched the very same response, hence the same
    error, is returned. *)
Theorem policy_decision_deterministic msg h1 h2 :
  launches h1 (handle msg h1).1 = launches h2 (handle msg h2).1 /\
  (launches h1 (handle msg h1).1 = [] -> (handle msg h1).2 = (handle msg h2).2).
Proof.
  destruct (handle_shape msg) as [(r & Hr)|(cmd & argv' & Hs & Hp)].
  - rewrite !Hr. cbn [fst snd]. rewrite !launches_refl. auto.
  - rewrite !Hp, !launches_respond_run. split; [reflexivity|discriminate].
Qed.

(** C5, at the failing input.  [safe_tar_list] launches [tar] on vectors
    without [-t] and without [--list]: on [-f archive.tar], all of whose
    flags are allowed, and on the old-style extraction request
    [xf archive.tar], which has no flag-shaped token at all. *)
Theorem tar_list_runs_without_list_flag i h :
  ("-t" ∉ ["-f"; "archive.tar"]) /\ ("--list" ∉ ["-f"; "archive.tar"]) /\
  handle (call_request i "safe_tar_list" ["-f"; "archive.tar"]) h =
    respond i (run "tar" ["-f"; "archive.tar"] h) /\
  handle (call_request i "safe_tar_list" ["xf"; "archive.tar"]) h =
    respond i (run "tar" ["xf"; "archive.tar"] h).
Proof.
  split; [|split; [|split]].
  - apply (bool_decide_unpack _). reflexivity.
  - apply (bool_decide_unpack _). reflexivity.
  - rewrite (handle_allowlist i "safe_tar_list" "tar" tar_allowed); [reflexivity|].
    right. left.
  - rewrite (handle_allowlist i "safe_tar_list" "tar" tar_allowed); [reflexivity|].
    right. left.
Qed.

(** The sibling operation does check: without [-l], [safe_unzip_list]
    refuses and launches nothing. *)
Lemma unzip_list_requires_l i args h :
  "-l" ∉ args ->
  handle (call_request i "safe_unzip_list" args) h =
    (h, error_reply i "safe_unzip_list requires -l (list) mode").
Proof. intros H. apply has_false in H. rewrite handle_unzip_list, H. reflexivity. Qed.

(** Both announcements list the own keys of the table, and each of those
    names is resolved to its tool by the call handler. *)
Lemma initialize_announces_keys i n a h :
  handle {| id := i; method := "initialize"; name := n; arguments := a |} h =
  (h, reply i (RInitialize (SERVER_NAME, VERSION)
                 (map (fun k => (k, "Safe Unix utility")) (Object_keys tools))) None).
Proof. reflexivity. Qed.

Lemma list_announces_keys i n a h :
  handle {| id := i; method := "tools/list"; name := n; arguments := a |} h =
  (h, reply i (RNames (Object_keys tools)) None).
Proof. reflexivity. Qed.

Lemma announced_is_dispatched n :
  n ∈ Object_keys tools -> exists f, (n, f) ∈ tools /\ get tools n = PTool f.
Proof.
  unfold Object_keys. intros H. apply list_elem_of_fmap in H as ([k f] & -> & H).
  exists f. split; [exact H|apply get_tool, H].
Qed.

(** C7, at the failing input.  The name [constructor] is not announced,
    yet the call handler resolves it (to the function inherited from
    [Object.prototype]) and answers the call with a result instead of
    ["unknown tool"]. *)
Theorem inherited_name_is_dispatched i a h :
  ("constructor" ∉ Object_keys tools) /\
  truthy (get tools "constructor") = true /\
  handle {| id := i; method := "tools/call"; name := "constructor"; arguments := a |} h
  = (h, {| rid := i; payload := PResult (RCall None) |}).
Proof.
  split; [|split].
  - apply (bool_decide_unpack _). vm_compute. reflexivity.
  - reflexivity.
  - rewrite handle_call. reflexivity.
Qed.

(** C6, amended.  For a call naming a catalogue operation, or a name the
    table does not resolve at all: the response is an error object exactly
    when no process was launched, or the one launched did not close with
    code 0 (it could not be started, or closed with another code or none);
    a process closing with code 0 yields a result carrying its stdout; a
    process closing otherwise yields, as message, its stderr, or
    ["exit <code>"] when stderr is empty; and every error object carries
    the one code -32000. *)
Theorem call_reply_classification i n args h :
  n ∉ "__proto__" :: Object_prototype_functions ->
  let r := handle (call_request i n args) h in
  (is_error r.2 = true <->
     launches h r.1 = [] \/
     exists c, launches h r.1 = [c] /\
               forall o e, (spawn c (world h)).2 <> EvClose (Some 0%Z) o e) /\
  (forall c o e,
     launches h r.1 = [c] -> (spawn c (world h)).2 = EvClose (Some 0%Z) o e ->
     r.2 = {| rid := i; payload := PResult (RCall (Some o)) |}) /\
  (forall c cd o e,
     launches h r.1 = [c] -> (spawn c (world h)).2 = EvClose cd o e ->
     cd <> Some 0%Z ->
     r.2 = error_reply i (if String.eqb e "" then "exit " ++ show_code cd else e)) /\
  (forall k m, payload r.2 = PError k m -> k = (-32000)%Z).
Proof.
  intros Hn r.
  assert (Hquiet : forall m, r = (h, error_reply i m) ->
    (is_error r.2 = true <->
       launches h r.1 = [] \/
       exists c, launches h r.1 = [c] /\
                 forall o e, (spawn c (world h)).2 <> EvClose (Some 0%Z) o e) /\
    (forall c o e,
       launches h r.1 = [c] -> (spawn c (world h)).2 = EvClose (Some 0%Z) o e ->
       r.2 = {| rid := i; payload := PResult (RCall (Some o)) |}) /\
    (forall c cd o e,
       launches h r.1 = [c] -> (spawn c (world h)).2 = EvClose cd o e ->
       cd <> Some 0%Z ->
       r.2 = error_reply i (if String.eqb e "" then "exit " ++ show_code cd else e)) /\
    (forall k m, payload r.2 = PError k m -> k = (-32000)%Z)).
  { intros m ->. cbn [fst snd]. rewrite launches_refl.
    split; [|split; [|split]].
    - split; [auto|reflexivity].
    - discriminate.
    - discriminate.
    - cbn. intros k m' [= <- _]. reflexivity. }
  destruct (get_not_inherited n Hn) as [(f & Hf & G)|G].
  - destruct (tool_shape n f args Hf) as [(t & Ht & Hr)|(cmd & argv' & _ & Hp)].
    + apply (Hquiet t). subst r. rewrite (handle_tool i n f args h Hf), Hr.
      apply respond_throw, Ht.
    + assert (Er : r = respond i (run cmd argv' h)).
      { subst r. rewrite (handle_tool i n f args h Hf), Hp. reflexivity. }
      clear Hquiet. rewrite Er, launches_respond_run, respond_run. cbv zeta. cbn [fst snd].
      set (c := {| file := cmd; argv := argv'; shell := false |}).
      destruct (spawn c (world h)) as [w ev] eqn:Es. cbn [fst snd].
      split; [|split; [|split]].
      * split.
        -- intros He. right. exists c. split; [reflexivity|].
           rewrite Es. cbn [snd]. intros o e ->. discriminate.
        -- intros [Hnil|(c' & [= <-] & Hne)]; [discriminate|].
           rewrite Es in Hne. cbn [snd] in Hne.
           destruct ev as [e|[[|q|q]|] o e]; try reflexivity.
           exfalso. apply (Hne o e). reflexivity.
      * intros c' o e [= <-]. rewrite Es. cbn [snd]. intros ->. reflexivity.
      * intros c' cd o e [= <-]. rewrite Es. cbn [snd]. intros -> Hcd.
        destruct cd as [[|q|q]|]; try reflexivity. congruence.
      * destruct ev as [e|[[|q|q]|] o e]; cbn;
          intros k m; try discriminate; intros [= <- _]; reflexivity.
  - apply (Hquiet "unknown tool"). subst r. unfold call_request.
    rewrite handle_call, G. reflexivity.
Qed.

(** C1, amended.  Default-deny holds for three operations only, and only
    for part of the vector: [safe_ls] and [safe_tar_list] refuse every
    vector holding a flag-shaped token outside their allowlist, and
    [safe_git] refuses every vector whose first argument is not an
    enumerated sub-command.  The other operations are open: [safe_find]
    and [safe_sed] refuse exactly the vectors holding a forbidden token,
    [safe_unzip_list] exactly those without [-l], [safe_stat] refuses
    nothing and drops the tokens beginning with [--]; no unguarded
    operation refuses any vector, and apart from [safe_stat], [safe_sha]
    and the four operations that take no argument each of them hands the
    whole vector, unchanged, to its command. *)
Theorem validation_rules_by_operation n f args h :
  (n, f) ∈ tools ->
  (forall cmd allowlist,
     (n, cmd, allowlist) ∈
       [("safe_ls", "ls", ls_allowlist); ("safe_tar_list", "tar", tar_allowed)] ->
     Exists (fun a => startsWith a "-" = true /\ (a ∉ allowlist)) args ->
     exists b, b ∈ args /\
       f (Some args) h = (h, Throw (Error ("flag not allowed here: " ++ b)))) /\
  (n = "safe_git" -> hd "" args ∉ allowedSub ->
     f (Some args) h =
       (h, Throw (Error ("git subcommand not allowed: " ++ hd "" args)))) /\
  (forall cmd, (n, cmd) ∈ [("safe_find", "find"); ("safe_sed", "sed")] ->
     f (Some args) h =
       match List.find (has FORBIDDEN_TOKENS) args with
       | Some b => (h, Throw (Error ("forbidden argument: " ++ b)))
       | None => run cmd args h
       end) /\
  (n = "safe_unzip_list" ->
     f (Some args) h =
       if has args "-l" then run "unzip" args h
       else (h, Throw (Error "safe_unzip_list requires -l (list) mode"))) /\
  (n = "safe_stat" ->
     f (Some args) h =
       run "stat" (List.filter (fun a => negb (startsWith a "--")) args) h) /\
  (n ∉ guarded -> exists cmd argv', f (Some args) h = run cmd argv' h) /\
  (n ∉ (guarded ++ reshaping)%list -> exists cmd, f (Some args) h = run cmd args h).
Proof.
  intros Hf.
  assert (Hsame : forall g, get tools n = PTool g -> f = g).
  { intros g Hg. apply (tool_functional n); [exact Hf|apply get_PTool_elem, Hg]. }
  repeat split.
  - intros cmd allowlist Hn Hex.
    apply Exists_exists in Hex as (a & Hin & Hflag & Hout).
    destruct (first_foreign_flag allowlist args a Hin Hflag Hout)
      as (b & pre & post & Hargs & _ & _ & _ & Hfind).
    exists b. split.
    { rewrite Hargs. apply elem_of_app. right. left. }
    rewrite !elem_of_cons, elem_of_nil in Hn.
    destruct Hn as [[= -> -> ->]|[[= -> -> ->]|[]]].
    + rewrite (Hsame safe_ls eq_refl). unfold safe_ls.
      change (default [] (Some args)) with args. cbv zeta.
      rewrite allowlist_tool_eq, Hfind. reflexivity.
    + rewrite (Hsame safe_tar_list eq_refl). unfold safe_tar_list.
      change (default [] (Some args)) with args. cbv zeta.
      rewrite allowlist_tool_eq, Hfind. reflexivity.
  - intros -> Hsub. rewrite (Hsame safe_git eq_refl), safe_git_eq.
    apply has_false in Hsub. rewrite Hsub. reflexivity.
  - intros cmd Hn. rewrite !elem_of_cons, elem_of_nil in Hn.
    destruct Hn as [[= -> ->]|[[= -> ->]|[]]].
    + rewrite (Hsame safe_find eq_refl). unfold safe_find.
      change (default [] (Some args)) with args. cbv zeta. apply denylist_tool_eq.
    + rewrite (Hsame safe_sed eq_refl). unfold safe_sed.
      change (default [] (Some args)) with args. cbv zeta. apply denylist_tool_eq.
  - intros ->. rewrite (Hsame safe_unzip_list eq_refl). apply safe_unzip_list_eq.
  - intros ->. rewrite (Hsame safe_stat eq_refl). reflexivity.
  - intros Hn. clear Hsame.
    split_table Hf;
      try (exfalso; apply Hn; apply (bool_decide_unpack _); reflexivity);
      try (eexists _, _; reflexivity).
    (* safe_sha *)
    rewrite safe_sha_eq. destruct args as [|tool rest]; [eauto|].
    destruct (has sha_tools tool); eauto.
  - intros Hn. clear Hsame.
    split_table Hf;
      try (exfalso; apply Hn; apply (bool_decide_unpack _); reflexivity);
      eexists; reflexivity.
Qed.

(** * Further properties of the dispatcher *)

Lemma reply_error i r e :
  exists m, reply i r (Some e) = error_reply i m /\ m <> "".
Proof.
  unfold reply, error_reply.
  destruct (String.eqb (message_of e) "") eqn:E.
  - exists (String_of_error e). split; [reflexivity|].
    unfold String_of_error. rewrite E. destruct e; discriminate.
  - exists (message_of e). split; [reflexivity|]. apply String.eqb_neq, E.
Qed.

(** Every response is built by [reply] with the request's id. *)
Lemma handle_reply msg h :
  exists r e, (handle msg h).2 = reply (id msg) r e.
Proof.
  unfold handle.
  destruct (String.eqb (method msg) "initialize"); [cbn [snd]; eauto|].
  destruct (String.eqb (method msg) "tools/list"); [cbn [snd]; eauto|].
  destruct (String.eqb (method msg) "tools/call"); [|cbn [snd]; eauto].
  cbv zeta. destruct (negb (truthy (get tools (name msg)))); [cbn [snd]; eauto|].
  destruct (call_property _ _ h) as [h' [o|e]]; cbn [snd]; eauto.
Qed.

(** The host after a request: untouched, or the one the named tool's body
    leaves. *)
Lemma handle_host msg h :
  (handle msg h).1 = h \/
  (method msg = "tools/call" /\
   exists f, (name msg, f) ∈ tools /\
             (handle msg h).1 = (f (Some (default [] (arguments msg))) h).1).
Proof.
  destruct msg as [i m n a].
  destruct (String.eqb m "tools/call") eqn:Em.
  - apply String.eqb_eq in Em. subst m. rewrite handle_call.
    destruct (get tools n) as [f|b| |] eqn:G.
    + right. split; [reflexivity|]. apply get_PTool_elem in G.
      exists f. split; [exact G|].
      rewrite respond_host, (tool_reads_args n f a G). reflexivity.
    + left. destruct (String.eqb b "constructor" || String.eqb b "toString"); reflexivity.
    + left. reflexivity.
    + left. reflexivity.
  - left. unfold handle. cbn [id method name arguments]. rewrite Em.
    destruct (String.eqb m "initialize"); [reflexivity|].
    destruct (String.eqb m "tools/list"); reflexivity.
Qed.

(** The program a tool body launches is one the table names. *)
Lemma tool_program n f args h c :
  (n, f) ∈ tools -> c ∈ launches h (f (Some args) h).1 -> file c ∈ programs.
Proof.
  intros Hf.
  assert (Hrun : forall cmd argv', cmd ∈ programs ->
            c ∈ launches h (run cmd argv' h).1 -> file c ∈ programs).
  { intros cmd argv' Hc Hin. rewrite launches_run in Hin.
    apply list_elem_of_singleton in Hin. subst c. exact Hc. }
  assert (Hnone : c ∈ launches h h -> file c ∈ programs).
  { rewrite launches_refl. intros Hin. apply elem_of_nil in Hin. contradiction. }
  assert (Hprog : forall cmd, has programs cmd = true -> cmd ∈ programs).
  { intros cmd. apply has_true. }
  split_table Hf;
    try (apply Hrun, Hprog; vm_compute; reflexivity).
  - (* safe_ls *)
    unfold safe_ls. change (default [] (Some args)) with args. cbv zeta.
    rewrite allowlist_tool_eq. destruct (List.find _ args); [exact Hnone|].
    apply Hrun, Hprog. vm_compute. reflexivity.
  - (* safe_sed *)
    unfold safe_sed. change (default [] (Some args)) with args. cbv zeta.
    rewrite denylist_tool_eq. destruct (List.find _ args); [exact Hnone|].
    apply Hrun, Hprog. vm_compute. reflexivity.
  - (* safe_sha *)
    rewrite safe_sha_eq. destruct args as [|tool rest].
    + apply Hrun, Hprog. vm_compute. reflexivity.
    + destruct (has sha_tools tool) eqn:E.
      * apply Hrun. apply has_true in E. unfold programs.
        apply elem_of_app. right. apply elem_of_app. left. exact E.
      * apply Hrun, Hprog. vm_compute. reflexivity.
  - (* safe_tar_list *)
    unfold safe_tar_list. change (default [] (Some args)) with args. cbv zeta.
    rewrite allowlist_tool_eq. destruct (List.find _ args); [exact Hnone|].
    apply Hrun, Hprog. vm_compute. reflexivity.
  - (* safe_unzip_list *)
    rewrite safe_unzip_list_eq. destruct (has args "-l"); [|exact Hnone].
    apply Hrun, Hprog. vm_compute. reflexivity.
  - (* safe_find *)
    unfold safe_find. change (default [] (Some args)) with args. cbv zeta.
    rewrite denylist_tool_eq. destruct (List.find _ args); [exact Hnone|].
    apply Hrun, Hprog. vm_compute. reflexivity.
  - (* safe_git *)
    rewrite safe_git_eq. destruct (has allowedSub (hd "" args)); [|exact Hnone].
    apply Hrun, Hprog. vm_compute. reflexivity.
Qed.

(** X1.  The response to a request carries the request's id, whatever
    the method, the name and the outcome. *)
Theorem response_carries_request_id msg h :
  rid (handle msg h).2 = id msg.
Proof. destruct (handle_reply msg h) as (r & e & ->). reflexivity. Qed.

(** X2.  Every error object, on every path of the handler, carries the
    code -32000 and a message that is not empty. *)
Theorem error_objects_have_text msg h k m :
  payload (handle msg h).2 = PError k m -> k = (-32000)%Z /\ m <> "".
Proof.
  destruct (handle_reply msg h) as (r & [e|] & ->).
  - destruct (reply_error (id msg) r e) as (m' & -> & Hm).
    cbn. intros [= <- <-]. auto.
  - cbn. discriminate.
Qed.

(** X3.  A request either leaves the host as it was or appends exactly
    one launch to the trace: no request launches two processes, and none
    rewrites the trace. *)
Theorem one_launch_at_most msg h :
  (handle msg h).1 = h \/
  exists c, spawned (handle msg h).1 = (spawned h ++ [c])%list /\
            world (handle msg h).1 = (spawn c (world h)).1.
Proof.
  destruct (handle_shape msg) as [(r & Hr)|(cmd & argv' & _ & Hp)].
  - left. rewrite Hr. reflexivity.
  - right. rewrite Hp, respond_run. cbv zeta. cbn [fst world spawned]. eauto.
Qed.

(** X4.  Only a [tools/call] that names one of the keys of the table can
    launch a process; [initialize], [tools/list], any other method, and a
    call naming anything else (a name inherited from [Object.prototype]
    included) launch nothing. *)
Theorem only_catalogue_calls_launch msg h :
  launches h (handle msg h).1 <> [] ->
  method msg = "tools/call" /\ name msg ∈ Object_keys tools.
Proof.
  intros Hl. destruct (handle_host msg h) as [E|(Hm & f & Hf & _)].
  - rewrite E, launches_refl in Hl. contradiction.
  - split; [exact Hm|]. unfold Object_keys.
    apply list_elem_of_fmap. exists (name msg, f). split; [reflexivity|exact Hf].
Qed.

(** X5.  The file handed to [spawn] for every process the handler launches
    is one of the fifty names the table writes as the first argument of a
    [run], the eight checksum tools of [safe_sha] among them.  The
    statement bounds the first argument of [spawn] and nothing more: what
    the launched program does with its operands, as [env] or [find] may, is
    not part of it. *)
Theorem launched_program_is_in_table msg h c :
  c ∈ launches h (handle msg h).1 -> file c ∈ programs.
Proof.
  destruct (handle_host msg h) as [E|(_ & f & Hf & E)]; rewrite E.
  - rewrite launches_refl. intros Hin. apply elem_of_nil in Hin. contradiction.
  - apply (tool_program (name msg) f _ h c Hf).
Qed.

(** X6.  [safe_ls] and [safe_tar_list] launch their command exactly when
    every flag-shaped token of the vector is in the allowlist, and then on
    the whole vector: tokens that do not begin with [-] are never looked
    at. *)
Theorem allowlist_accepts_exactly i n cmd allowlist args h :
  (n, cmd, allowlist) ∈
    [("safe_ls", "ls", ls_allowlist); ("safe_tar_list", "tar", tar_allowed)] ->
  (launches h (handle (call_request i n args) h).1
     = [{| file := cmd; argv := args; shell := false |}]
   <-> Forall (fun a => startsWith a "-" = true -> a ∈ allowlist) args).
Proof.
  intros Hn. rewrite (handle_allowlist i n cmd allowlist args h Hn).
  destruct (List.find (foreign_flag allowlist) args) as [b|] eqn:E.
  - cbn [fst]. rewrite launches_refl. split; [discriminate|].
    intros Hall. exfalso.
    destruct (find_Some_split _ _ _ E) as (pre & post & -> & Hb & _).
    apply Forall_app in Hall as [_ Hall]. apply Forall_cons in Hall as [Hall _].
    unfold foreign_flag in Hb. apply andb_true_iff in Hb as [Hb1 Hb2].
    apply negb_true_iff, has_false in Hb1. auto.
  - rewrite launches_respond_run. split; [|reflexivity]. intros _.
    apply find_None_Forall in E. eapply Forall_impl; [exact E|].
    intros a Ha Hflag. unfold foreign_flag in Ha. rewrite Hflag, andb_true_r in Ha.
    apply negb_false_iff, has_true in Ha. exact Ha.
Qed.

(** X7.  [safe_unzip_list] launches [unzip], on the whole vector, exactly
    when some token is [-l]; no other token is checked.  Without [-l] it
    answers with its own error and launches nothing. *)
Theorem unzip_list_gate i args h :
  let r := handle (call_request i "safe_unzip_list" args) h in
  ("-l" ∈ args ->
     r = respond i (run "unzip" args h) /\
     launches h r.1 = [{| file := "unzip"; argv := args; shell := false |}]) /\
  ("-l" ∉ args ->
     r = (h, error_reply i "safe_unzip_list requires -l (list) mode") /\
     launches h r.1 = []).
Proof.
  intros r. subst r. rewrite handle_unzip_list. split.
  - intros Hl. apply has_true in Hl. rewrite Hl.
    split; [reflexivity|apply launches_respond_run].
  - intros Hl. apply has_false in Hl. rewrite Hl.
    split; [reflexivity|apply launches_refl].
Qed.

Lemma own_property_key t n f : own_property t n = Some f -> n ∈ Object_keys t.
Proof.
  intros H. apply own_property_elem in H. unfold Object_keys.
  apply list_elem_of_fmap. exists (n, f). split; [reflexivity|exact H].
Qed.

(** X8.  The table has 43 keys, pairwise distinct, and a call naming any
    of them is answered by running that key's own tool body: an announced
    name is never reported unknown and never resolved to another tool. *)
Theorem announced_names_are_dispatched :
  NoDup (Object_keys tools) /\ length (Object_keys tools) = 43 /\
  forall n, n ∈ Object_keys tools ->
    exists f, own_property tools n = Some f /\
      forall i args h, handle (call_request i n args) h = respond i (f (Some args) h).
Proof.
  split; [exact tools_keys_NoDup|split; [reflexivity|]].
  intros n Hn. destruct (announced_is_dispatched n Hn) as (f & Hf & G).
  exists f. split.
  - unfold get in G. destruct (own_property tools n) as [g|].
    + injection G as ->. reflexivity.
    + destruct (has _ n); [discriminate|].
      destruct (String.eqb n "__proto__"); discriminate.
  - intros i args h. apply handle_tool, Hf.
Qed.

(** X9.  A call whose name is neither a key of the table nor a property
    of [Object.prototype] is answered with the error ["unknown tool"], and
    the host is left as it was. *)
Theorem unknown_name_is_refused i n args h :
  n ∉ Object_keys tools ->
  n ∉ "__proto__" :: Object_prototype_functions ->
  handle (call_request i n args) h = (h, error_reply i "unknown tool").
Proof.
  intros Hk Hp. unfold call_request. rewrite handle_call.
  destruct (get_not_inherited n Hp) as [(f & Hf & G)|G]; rewrite G.
  - exfalso. apply Hk. unfold Object_keys.
    apply list_elem_of_fmap. exists (n, f). split; [reflexivity|exact Hf].
  - reflexivity.
Qed.

(** X10.  [safe_stat] refuses nothing and always launches [stat]; no
    token beginning with [--] reaches it, every other token does, in
    order, and a vector without such tokens is handed over unchanged. *)
Theorem stat_drops_long_options i args h :
  exists c,
    launches h (handle (call_request i "safe_stat" args) h).1 = [c] /\
    file c = "stat" /\
    Forall (fun a => startsWith a "--" = false) (argv c) /\
    (forall a, a ∈ args -> startsWith a "--" = false -> a ∈ argv c) /\
    argv c `sublist_of` args /\
    (Forall (fun a => startsWith a "--" = false) args -> argv c = args).
Proof.
  rewrite (handle_tool i "safe_stat" safe_stat) by (apply get_PTool_elem; reflexivity).
  unfold safe_stat. change (default [] (Some args)) with args. cbv zeta.
  rewrite launches_respond_run. eexists. split; [reflexivity|]. cbn [file argv].
  split; [reflexivity|]. split; [|split; [|split]].
  - apply Forall_forall. intros a Ha. apply list_elem_of_In, filter_In in Ha as [_ Ha].
    apply negb_true_iff, Ha.
  - intros a Hin Ha. apply list_elem_of_In, filter_In. split.
    + apply list_elem_of_In, Hin.
    + rewrite Ha. reflexivity.
  - apply filter_sublist.
  - intros Hall. induction args as [|a args IH]; [reflexivity|].
    apply Forall_cons in Hall as [Ha Hall]. cbn [List.filter].
    rewrite Ha. cbn [negb]. f_equal. apply IH, Hall.
Qed.

(** * The listener *)

Lemma length_app a b : String.length (a ++ b) = String.length a + String.length b.
Proof.
  induction a as [|c a IH]; [reflexivity|].
  change (String c a ++ b) with (String c (a ++ b)). cbn [String.length]. rewrite IH. reflexivity.
Qed.

Lemma app_assoc_string a b c : (a ++ b) ++ c = a ++ b ++ c.
Proof.
  induction a as [|x a IH]; [reflexivity|].
  change ((String x a ++ b) ++ c) with (String x ((a ++ b) ++ c)). rewrite IH. reflexivity.
Qed.

Lemma append_empty_r q : q ++ EmptyString = q.
Proof.
  induction q as [|c q IH]; [reflexivity|].
  change (String c q ++ "") with (String c (q ++ "")). f_equal. exact IH.
Qed.

Lemma substring_whole s : substring 0 (String.length s) s = s.
Proof. induction s as [|c s IH]; [reflexivity|]. cbn [String.length substring]. rewrite IH. reflexivity. Qed.

Lemma slice_line line c rest :
  slice (line ++ String c rest) 0 (String.length line) = line.
Proof.
  unfold slice. rewrite Nat.sub_0_r. induction line as [|x line IH]; [reflexivity|].
  change (String x line ++ String c rest) with (String x (line ++ String c rest)).
  cbn [String.length substring]. rewrite IH. reflexivity.
Qed.

Lemma slice_rest line c rest :
  slice (line ++ String c rest) (String.length line + 1)
        (String.length (line ++ String c rest)) = rest.
Proof.
  unfold slice. rewrite length_app. cbn [String.length].
  replace (String.length line + S (String.length rest) - (String.length line + 1))
    with (String.length rest) by lia.
  induction line as [|x line IH].
  - cbn [String.length Nat.add]. change (EmptyString ++ String c rest) with (String c rest).
    cbn [substring]. apply substring_whole.
  - change (String x line ++ String c rest) with (String x (line ++ String c rest)).
    cbn [String.length Nat.add substring]. exact IH.
Qed.

Lemma indexOf_line c line rest :
  indexOf c line = None -> indexOf c (line ++ String c rest) = Some (String.length line).
Proof.
  induction line as [|x line IH]; cbn [indexOf].
  - intros _. change (EmptyString ++ String c rest) with (String c rest).
    cbn [indexOf]. rewrite Ascii.eqb_refl. reflexivity.
  - change (String x line ++ String c rest) with (String x (line ++ String c rest)).
    cbn [indexOf]. destruct (Ascii.eqb x c); [discriminate|].
    destruct (indexOf c line); [discriminate|]. intros _. rewrite (IH eq_refl). reflexivity.
Qed.

Lemma indexOf_app_None c a b :
  indexOf c a = None -> indexOf c b = None -> indexOf c (a ++ b) = None.
Proof.
  intros Ha Hb. induction a as [|x a IH]; [exact Hb|].
  change (String x a ++ b) with (String x (a ++ b)). cbn [indexOf] in *.
  destruct (Ascii.eqb x c); [discriminate|].
  destruct (indexOf c a); [discriminate|]. rewrite (IH eq_refl). reflexivity.
Qed.



(** The loop on a buffer without a complete line, and on one that starts
    with a complete line. *)
Lemma loop_tail decode b h out aw :
  indexOf newline b = None ->
  loop decode b h out aw =
  {| buf := b; host := h; written := out; awaited := aw; last := Drained |}.
Proof. intros E. rewrite loop_equation, E. reflexivity. Qed.

Lemma loop_line decode line rest h out aw :
  indexOf newline line = None ->
  loop decode (line ++ String newline rest) h out aw =
  match decode line with
  | LSkip => loop decode rest h out aw
  | LNull => {| buf := rest; host := h; written := out; awaited := aw; last := Raised |}
  | LMsg msg =>
      if suspends msg
      then {| buf := rest; host := (handle msg h).1; written := out;
              awaited := (aw ++ [(handle msg h).2])%list; last := Awaiting |}
      else if stops msg
      then {| buf := rest; host := (handle msg h).1;
              written := (out ++ [(handle msg h).2])%list; awaited := aw;
              last := Returned |}
      else loop decode rest (handle msg h).1 (out ++ [(handle msg h).2])%list aw
  end.
Proof.
  intros E. rewrite loop_equation, (indexOf_line newline line rest E).
  rewrite slice_line, slice_rest. destruct (decode line) as [| |msg]; try reflexivity.
  destruct (handle msg h) as [h' r]. reflexivity.
Qed.

Lemma requests_cons decode line lines :
  requests decode (line :: lines) =
  match decode line with
  | LMsg msg => msg :: requests decode lines
  | _ => requests decode lines
  end.
Proof. unfold requests. cbn. destruct (decode line); reflexivity. Qed.

(** A request the loop does not await on leaves the host as it is: it
    launches nothing. *)
Lemma synchronous_host msg h : suspends msg = false -> (handle msg h).1 = h.
Proof.
  unfold suspends, handle.
  destruct (String.eqb (method msg) "initialize"); [reflexivity|].
  destruct (String.eqb (method msg) "tools/list"); [reflexivity|].
  destruct (String.eqb (method msg) "tools/call"); [|reflexivity].
  cbn [andb]. destruct (get tools (name msg)) as [f|b| |]; cbn [truthy negb call_property].
  - discriminate.
  - intros ->. reflexivity.
  - reflexivity.
  - reflexivity.
Qed.

Lemma stops_reply msg h :
  stops msg = true -> handle msg h = (h, error_reply (id msg) "unknown tool").
Proof.
  unfold stops, handle. intros H. apply andb_true_iff in H as [Hm Ht].
  apply String.eqb_eq in Hm. rewrite Hm, Ht. reflexivity.
Qed.

(** What the loop does after having gone past some lines. *)
Lemma loop_passes decode lines b h out aw :
  Forall (passes decode) lines ->
  loop decode (join_lines lines ++ b) h out aw =
  loop decode b h (out ++ answers h (requests decode lines))%list aw.
Proof.
  intros Hl. revert out. induction Hl as [|line lines [Hnl Hd] _ IH]; intros out.
  - cbn [join_lines fold_right requests omap answers map].
    change (EmptyString ++ b) with b. rewrite app_nil_r. reflexivity.
  - cbn [join_lines fold_right]. fold (join_lines lines).
    rewrite app_assoc_string.
    change (String newline (join_lines lines) ++ b)
      with (String newline (join_lines lines ++ b)).
    rewrite (loop_line decode line _ h out aw Hnl), requests_cons.
    destruct (decode line) as [| |msg]; [apply IH|contradiction|].
    destruct Hd as [Hstop Hsus]. rewrite Hsus, Hstop, (synchronous_host msg h Hsus), IH.
    cbn [answers map]. rewrite <- app_assoc. reflexivity.
Qed.




(** The loop at a line holding an awaited call, after lines it goes
    past. *)
Lemma loop_awaited decode lines line msg rest h out aw :
  Forall (passes decode) lines ->
  indexOf newline line = None -> decode line = LMsg msg -> suspends msg = true ->
  loop decode (join_lines lines ++ line ++ String newline rest) h out aw =
  {| buf := rest;
     host := (handle msg h).1;
     written := (out ++ answers h (requests decode lines))%list;
     awaited := (aw ++ [(handle msg h).2])%list;
     last := Awaiting |}.
Proof.
  intros Hl Hnl Hd Hs. rewrite (loop_passes decode lines _ h out aw Hl).
  rewrite (loop_line decode line rest _ _ _ Hnl), Hd, Hs. reflexivity.
Qed.

(** X11.  A buffer made of complete lines, each either skipped or holding
    a request answered at once (one the loop neither returns nor awaits
    on), followed by an unterminated tail: one run of the loop answers the
    requests in the order of their lines, one response each, launches
    nothing, sets no invocation aside, and leaves exactly the tail in
    [buf]. *)
Theorem synchronous_lines_are_answered_in_order decode lines tail h out aw :
  Forall (passes decode) lines -> indexOf newline tail = None ->
  loop decode (join_lines lines ++ tail) h out aw =
  {| buf := tail;
     host := h;
     written := (out ++ answers h (requests decode lines))%list;
     awaited := aw;
     last := Drained |}.
Proof.
  intros Hl Ht. rewrite (loop_passes decode lines tail h out aw Hl).
  apply loop_tail, Ht.
Qed.

(** X12.  A call of a name that [tools[name]] does not resolve ends the
    invocation: the listener [return]s from inside the loop.  The call is
    answered [unknown tool], and whatever is behind it in [buf], complete
    lines included, stays there when the run ends: it waits for the loop
    to be run again, by the next chunk or by an invocation that
    resumes. *)
Theorem unknown_tool_ends_the_invocation decode lines line msg rest h out aw :
  Forall (passes decode) lines ->
  indexOf newline line = None -> decode line = LMsg msg -> stops msg = true ->
  loop decode (join_lines lines ++ line ++ String newline rest) h out aw =
  {| buf := rest;
     host := h;
     written := (out ++ answers h (requests decode lines)
                     ++ [error_reply (id msg) "unknown tool"])%list;
     awaited := aw;
     last := Returned |}.
Proof.
  intros Hl Hnl Hd Hs. rewrite (loop_passes decode lines _ h out aw Hl).
  rewrite (loop_line decode line rest _ _ _ Hnl), Hd, Hs, (stops_reply msg _ Hs).
  assert (Hsus : suspends msg = false).
  { unfold stops in Hs. unfold suspends. apply andb_true_iff in Hs as [-> Ht].
    destruct (get tools (name msg)); try discriminate Ht. reflexivity. }
  rewrite Hsus. cbn [fst snd]. rewrite <- app_assoc. reflexivity.
Qed.

(** X13.  A call of a name that resolves to a tool, or to an inherited
    function that returns, sets the invocation aside at its [await]: the
    call has been made, so the process, if the tool launches one, is
    launched; nothing is written for the call yet, its response joins the
    awaited ones; and whatever is behind the call in [buf], complete lines
    included, stays there when the run ends. *)
Theorem awaited_call_sets_the_invocation_aside decode lines line msg rest h out aw :
  Forall (passes decode) lines ->
  indexOf newline line = None -> decode line = LMsg msg -> suspends msg = true ->
  loop decode (join_lines lines ++ line ++ String newline rest) h out aw =
  {| buf := rest;
     host := (handle msg h).1;
     written := (out ++ answers h (requests decode lines))%list;
     awaited := (aw ++ [(handle msg h).2])%list;
     last := Awaiting |}.
Proof. apply loop_awaited. Qed.

(** X14.  Responses are not written in the order of the requests.  When a
    chunk brings an awaited call, and the next chunk brings lines answered
    at once before the promise of the call has settled (as when the
    launched process is still running), the later requests are answered
    first; the response to the call is written when its invocation
    resumes. *)
Theorem later_lines_overtake_an_awaited_call decode p line msg lines :
  last p <> Raised -> buf p = EmptyString ->
  indexOf newline line = None -> decode line = LMsg msg -> suspends msg = true ->
  Forall (passes decode) lines ->
  run_events decode
    [Data (line ++ String newline EmptyString); Data (join_lines lines);
     Settled (length (awaited p))] p =
  {| buf := EmptyString;
     host := (handle msg (host p)).1;
     written := (written p ++ answers (handle msg (host p)).1 (requests decode lines)
                   ++ [(handle msg (host p)).2])%list;
     awaited := awaited p;
     last := Drained |}.
Proof.
  intros Hp Hb Hnl Hd Hs Hl.
  unfold run_events. cbn [fold_left].
  assert (E1 : on_event decode (Data (line ++ String newline EmptyString)) p =
               {| buf := EmptyString; host := (handle msg (host p)).1;
                  written := written p;
                  awaited := (awaited p ++ [(handle msg (host p)).2])%list;
                  last := Awaiting |}).
  { unfold on_event, on_data. rewrite Hb.
    change (EmptyString ++ line ++ String newline EmptyString)
      with (join_lines [] ++ line ++ String newline EmptyString).
    rewrite (loop_awaited decode [] line msg EmptyString
               (host p) (written p) (awaited p) (Forall_nil_2 _) Hnl Hd Hs).
    cbn [requests omap answers map]. rewrite app_nil_r.
    destruct (last p); try reflexivity. contradiction. }
  rewrite E1. clear E1.
  set (h1 := (handle msg (host p)).1). set (r1 := (handle msg (host p)).2).
  assert (E2 : on_event decode (Data (join_lines lines))
                 {| buf := EmptyString; host := h1; written := written p;
                    awaited := (awaited p ++ [r1])%list; last := Awaiting |} =
               {| buf := EmptyString; host := h1;
                  written := (written p ++ answers h1 (requests decode lines))%list;
                  awaited := (awaited p ++ [r1])%list;
                  last := Drained |}).
  { unfold on_event, on_data. cbn [last buf host written awaited].
    change (EmptyString ++ join_lines lines) with (join_lines lines).
    rewrite <- (append_empty_r (join_lines lines)).
    rewrite (loop_passes decode lines EmptyString h1 _ _ Hl).
    apply loop_tail. reflexivity. }
  rewrite E2. clear E2.
  unfold on_event, on_settled. cbn [last buf host written awaited].
  rewrite lookup_app_r by lia. rewrite Nat.sub_diag. cbn [lookup list_lookup].
  rewrite (loop_tail decode EmptyString) by reflexivity.
  rewrite <- app_assoc.
  replace (delete (length (awaited p)) (awaited p ++ [r1])%list) with (awaited p).
  - reflexivity.
  - rewrite delete_middle. rewrite app_nil_r. reflexivity.
Qed.



End Server.

(** * Properties of the setup script *)

Section SetupProperties.

Context {JSON : Type} (JString : string -> JSON) (null_read_message : string).

Lemma suspicious_or cmd desc :
  existsb (fun pattern => test_i pattern cmd || test_i pattern desc) UNSAFE_PATTERNS
  = suspicious cmd || suspicious desc.
Proof.
  unfold suspicious. induction UNSAFE_PATTERNS as [|p ps IH]; [reflexivity|].
  cbn [existsb]. rewrite IH.
  destruct (test_i p cmd), (test_i p desc), (existsb _ ps), (existsb _ ps); reflexivity.
Qed.

(** [detectUnsafeServers] as a filter: it raises on the first unreadable
    entry, and otherwise returns the reported entries in order. *)
Lemma detectUnsafeServers_filter (l : list (string * @ServerEntry JSON)) :
  detectUnsafeServers null_read_message l =
  if existsb unreadable l then Throw (TypeError null_read_message)
  else Normal (List.filter reported l).
Proof.
  induction l as [|[n c] l IH]; [reflexivity|].
  cbn [detectUnsafeServers existsb List.filter]. unfold unreadable at 1, reported at 1.
  cbn [fst snd]. destruct (String.eqb n "safe-unix"); cbn [negb andb orb].
  - exact IH.
  - destruct c as [|cmd desc fields]; cbn [orb]; [reflexivity|].
    rewrite IH, suspicious_or. fold (suspicious n).
    destruct (existsb unreadable l); [reflexivity|].
    rewrite orb_assoc. reflexivity.
Qed.

(** Deleting a list of names one by one keeps the entries named
    otherwise. *)
Lemma delete_all_filter {V} (names : list string) (obj : list (string * V)) :
  fold_left (fun o name => delete_property name o) names obj =
  List.filter (fun kv => negb (has names (fst kv))) obj.
Proof.
  revert obj. induction names as [|n names IH]; intros obj; cbn [fold_left].
  - induction obj as [|kv obj IHo]; [reflexivity|].
    cbn [List.filter]. change (has [] (fst kv)) with false. cbn [negb]. f_equal. exact IHo.
  - rewrite IH. unfold delete_property.
    induction obj as [|kv obj IHo]; [reflexivity|].
    cbn [List.filter].
    assert (E : has (n :: names) (fst kv) = String.eqb (fst kv) n || has names (fst kv)).
    { destruct (String.eqb (fst kv) n) eqn:En; cbn [orb].
      - apply String.eqb_eq in En. apply has_true. rewrite En. left.
      - apply String.eqb_neq in En. destruct (has names (fst kv)) eqn:Eh.
        + apply has_true. right. apply has_true, Eh.
        + apply has_false. apply has_false in Eh.
          apply not_elem_of_cons. auto. }
    rewrite E. destruct (String.eqb (fst kv) n); cbn [negb orb]; [exact IHo|].
    cbn [List.filter]. destruct (has names (fst kv)); cbn [negb]; [exact IHo|].
    f_equal. exact IHo.
Qed.

Lemma get_set_property {V} name (v : V) obj :
  get_property name (set_property name v obj) = Some v.
Proof.
  induction obj as [|[k w] obj IH]; cbn [set_property get_property].
  - rewrite String.eqb_refl. reflexivity.
  - destruct (String.eqb k name) eqn:E; cbn [get_property]; rewrite E; [reflexivity|exact IH].
Qed.

Lemma set_set_property {V} name (v : V) obj :
  set_property name v (set_property name v obj) = set_property name v obj.
Proof.
  induction obj as [|[k w] obj IH]; cbn [set_property].
  - rewrite String.eqb_refl. reflexivity.
  - destruct (String.eqb k name) eqn:E; cbn [set_property]; rewrite E; [reflexivity|].
    f_equal. exact IH.
Qed.

(** Apart from the entry of [name], [set_property] keeps the object. *)
Lemma set_property_others {V} name (v : V) obj :
  List.filter (fun kv => negb (String.eqb (fst kv) name)) (set_property name v obj)
  = List.filter (fun kv => negb (String.eqb (fst kv) name)) obj.
Proof.
  induction obj as [|[k w] obj IH]; cbn [set_property List.filter fst].
  - rewrite String.eqb_refl. reflexivity.
  - destruct (String.eqb k name) eqn:E; cbn [List.filter fst]; rewrite E; cbn [negb].
    + reflexivity.
    + f_equal. exact IH.
Qed.

Lemma filter_all {A} (p : A -> bool) (l : list A) :
  Forall (fun x => p x = true) l -> List.filter p l = l.
Proof.
  induction 1 as [|x l Hx _ IH]; [reflexivity|].
  cbn [List.filter]. rewrite Hx, IH. reflexivity.
Qed.

Lemma purge_nothing (servers : list (string * @ServerEntry JSON)) :
  List.filter reported servers = [] -> purge servers = servers.
Proof.
  intros E. unfold purge. rewrite E. apply filter_all, Forall_forall.
  intros kv _. reflexivity.
Qed.

(** What a run that writes must have gone through. *)
Lemma main_written force file answers c :
  main JString null_read_message force file answers = Written c ->
  existsb unreadable (servers_of file) = false /\
  settings c = settings_of file /\
  (mcpServers c = Some (set_property "safe-unix" (getSafeUnixConfig JString) (servers_of file))
   \/ mcpServers c = Some (set_property "safe-unix" (getSafeUnixConfig JString)
                             (purge (servers_of file)))) /\
  (force = true ->
   mcpServers c = Some (set_property "safe-unix" (getSafeUnixConfig JString)
                          (purge (servers_of file)))).
Proof.
  intros H. unfold main in H.
  assert (Hlen : Nat.ltb 0 (length (List.filter reported (servers_of file))) = false ->
                 purge (servers_of file) = servers_of file).
  { intros El. apply purge_nothing. apply Nat.ltb_ge in El.
    destruct (List.filter reported (servers_of file)); [reflexivity|inversion El]. }
  destruct file as [config|]; cbn [servers_of settings_of] in *;
    [|destruct (prompt force answers) as [[answer rest]|]; [|discriminate H];
      destruct (negb (String.eqb answer "y")); [discriminate H|];
      cbn [mcpServers settings default] in H;
      change (from_option Datatypes.id [] None) with (@nil (string * @ServerEntry JSON)) in H];
    rewrite detectUnsafeServers_filter in H;
    match type of H with context [existsb unreadable ?l] =>
      destruct (existsb unreadable l); [discriminate H|];
      rewrite delete_all_filter in H;
      fold (purge l) in H;
      destruct (Nat.ltb 0 (length (List.filter reported l))) eqn:El
    end;
    destruct force; cbn [prompt negb andb] in H;
    repeat match type of H with
           | context [String.eqb "y" "y"] => rewrite String.eqb_refl in H
           | context [match ?a with [] => _ | _ :: _ => _ end] =>
               is_var a; destruct a as [|? ?]; [discriminate H|]
           | context [String.eqb ?a "y"] =>
               is_var a; destruct (String.eqb a "y"); cbn [negb] in H; try discriminate H
           end;
    injection H as <-; cbn [mcpServers settings];
    (split; [reflexivity|split; [reflexivity|split]]);
    try (intros; discriminate);
    try rewrite (Hlen eq_refl); auto.
Qed.

Lemma filter_none {A} (p : A -> bool) (l : list A) :
  Forall (fun x => p x = false) l -> List.filter p l = [].
Proof.
  induction 1 as [|x l Hx _ IH]; [reflexivity|].
  cbn [List.filter]. rewrite Hx. exact IH.
Qed.

Lemma existsb_none {A} (p : A -> bool) (l : list A) :
  Forall (fun x => p x = false) l -> existsb p l = false.
Proof.
  induction 1 as [|x l Hx _ IH]; [reflexivity|].
  cbn [existsb]. rewrite Hx. exact IH.
Qed.

Lemma existsb_false_Forall {A} (p : A -> bool) (l : list A) :
  existsb p l = false -> Forall (fun x => p x = false) l.
Proof.
  induction l as [|x l IH]; [constructor|].
  cbn [existsb]. intros H. apply orb_false_iff in H as [Hx Hl].
  constructor; auto.
Qed.

Lemma set_property_Forall {V} (P : string * V -> Prop) name v obj :
  P (name, v) -> Forall P obj -> Forall P (set_property name v obj).
Proof.
  intros Hv. induction 1 as [|[k w] obj Hk Hobj IH]; cbn [set_property].
  - constructor; [exact Hv|constructor].
  - destruct (String.eqb k name) eqn:E.
    + apply String.eqb_eq in E. subst k. constructor; assumption.
    + constructor; assumption.
Qed.

(** After the purge, and with ["safe-unix"] set, nothing is left to
    report. *)
Lemma detect_after_purge (servers : list (string * @ServerEntry JSON)) :
  existsb unreadable servers = false ->
  detectUnsafeServers null_read_message
    (set_property "safe-unix" (getSafeUnixConfig JString) (purge servers))
  = Normal [].
Proof.
  intros Hu. apply existsb_false_Forall in Hu.
  assert (Hin : forall kv, kv ∈ purge servers ->
            kv ∈ servers /\ unreadable kv = false /\ reported kv = false).
  { intros kv Hkv. unfold purge in Hkv.
    apply list_elem_of_In, filter_In in Hkv as [Hkv Hn].
    split; [apply list_elem_of_In, Hkv|split].
    - rewrite Forall_forall in Hu. apply Hu, list_elem_of_In, Hkv.
    - destruct (reported kv) eqn:Er; [|reflexivity]. exfalso.
      apply negb_true_iff, has_false in Hn. apply Hn.
      apply list_elem_of_fmap. exists kv. split; [reflexivity|].
      apply list_elem_of_In, filter_In. auto. }
  rewrite detectUnsafeServers_filter.
  rewrite existsb_none, filter_none; [reflexivity| |].
  - apply set_property_Forall; [reflexivity|].
    apply Forall_forall. intros kv Hkv. apply Hin, Hkv.
  - apply set_property_Forall; [reflexivity|].
    apply Forall_forall. intros kv Hkv. apply Hin, Hkv.
Qed.

(** X16.  Whenever the script writes, the configuration written has
    [mcpServers]["safe-unix"] equal to the fixed entry (command
    [mcp-safe-unix], transport [stdio]), whatever was there before, and
    every setting other than [mcpServers] is the one read. *)
Theorem setup_registers_safe_unix force file answers c :
  main JString null_read_message force file answers = Written c ->
  exists servers,
    mcpServers c = Some servers /\
    get_property "safe-unix" servers = Some (getSafeUnixConfig JString) /\
    settings c = settings_of file.
Proof.
  intros H. destruct (main_written force file answers c H) as (_ & Hs & [E|E] & _);
    rewrite E; eexists; (split; [reflexivity|split; [apply get_set_property|exact Hs]]).
Qed.

(** X17.  [detectUnsafeServers], when it returns, returns entries of its
    argument in their order, and an entry is among them exactly when its
    name is not ["safe-unix"] and one of the patterns matches its name,
    its command or its description: the script's own entry is never
    reported although its name contains [unix]. *)
Theorem detect_reports_exactly (l u : list (string * @ServerEntry JSON)) :
  detectUnsafeServers null_read_message l = Normal u ->
  u `sublist_of` l /\
  forall n e,
    (n, e) ∈ u <->
    (n, e) ∈ l /\ n <> "safe-unix" /\
    exists cmd desc fields,
      e = SObject cmd desc fields /\
      (suspicious n = true \/ suspicious (default EmptyString cmd) = true
       \/ suspicious (default EmptyString desc) = true).
Proof.
  clear JString.
  rewrite detectUnsafeServers_filter.
  destruct (existsb unreadable l); [discriminate|]. intros [= <-].
  split; [apply filter_sublist|]. intros n e.
  rewrite !list_elem_of_In, filter_In.
  unfold reported. cbn [fst snd]. rewrite andb_true_iff, negb_true_iff, String.eqb_neq.
  split.
  - intros (Hin & Hn & Hr). split; [exact Hin|split; [exact Hn|]].
    destruct e as [|cmd desc fields]; [discriminate|].
    exists cmd, desc, fields. split; [reflexivity|].
    apply orb_true_iff in Hr as [Hr|Hr]; [apply orb_true_iff in Hr|]; tauto.
  - intros (Hin & Hn & cmd & desc & fields & -> & Hr).
    split; [exact Hin|split; [exact Hn|]].
    rewrite !orb_true_iff. tauto.
Qed.

(** X18.  An entry of [mcpServers] that is [null], under any name but
    ["safe-unix"], makes a run on an existing configuration die of a
    [TypeError] before any question is asked and before anything is
    written. *)
Theorem null_entry_is_fatal force config servers answers n :
  mcpServers config = Some servers ->
  (n, SNull) ∈ servers -> n <> "safe-unix" ->
  main JString null_read_message force (Some config) answers
  = Fatal (TypeError null_read_message).
Proof.
  intros Hs Hin Hn. unfold main. rewrite Hs. change (default [] (Some servers)) with servers.
  rewrite detectUnsafeServers_filter.
  assert (E : existsb unreadable servers = true).
  { apply existsb_exists. exists (n, SNull). split; [apply list_elem_of_In, Hin|].
    unfold unreadable. cbn [fst snd]. apply String.eqb_neq in Hn. rewrite Hn. reflexivity. }
  rewrite E. reflexivity.
Qed.

(** X19.  In force mode a run that writes leaves nothing to report, and
    running the script again on the configuration it wrote writes that
    same configuration. *)
Theorem forced_setup_is_idempotent file answers answers' c :
  main JString null_read_message true file answers = Written c ->
  detectUnsafeServers null_read_message (default [] (mcpServers c)) = Normal [] /\
  main JString null_read_message true (Some c) answers' = Written c.
Proof.
  intros H. destruct (main_written true file answers c H) as (Hu & _ & _ & Hp).
  specialize (Hp eq_refl).
  assert (Hd : detectUnsafeServers null_read_message (default [] (mcpServers c)) = Normal []).
  { rewrite Hp. apply detect_after_purge, Hu. }
  split; [exact Hd|].
  unfold main. rewrite Hd. cbn [length Nat.ltb Nat.leb negb andb].
  destruct c as [ms st]. cbn [mcpServers settings] in *. subst ms.
  change (default [] (Some ?x)) with x. rewrite set_set_property. reflexivity.
Qed.

(** X20.  A run that writes changes [mcpServers] only at ["safe-unix"]
    and by deletion: the other entries written are entries read, in their
    order; an entry read whose name is not that of a reported entry is
    written; and the reported entries are either all kept or all
    deleted. *)
Theorem setup_keeps_other_servers force file answers c :
  main JString null_read_message force file answers = Written c ->
  let out := default [] (mcpServers c) in
  List.filter (fun kv => negb (String.eqb (fst kv) "safe-unix")) out
    `sublist_of` servers_of file /\
  (forall n e, (n, e) ∈ servers_of file -> n <> "safe-unix" ->
     n ∉ map fst (List.filter reported (servers_of file)) -> (n, e) ∈ out) /\
  ((forall n e, (n, e) ∈ servers_of file -> n <> "safe-unix" -> (n, e) ∈ out) \/
   detectUnsafeServers null_read_message out = Normal []).
Proof.
  intros H out. destruct (main_written force file answers c H) as (Hu & _ & Hc & _).
  assert (Hkeep : forall (l : list (string * @ServerEntry JSON)) n e,
            (n, e) ∈ l -> n <> "safe-unix" ->
            (n, e) ∈ set_property "safe-unix" (getSafeUnixConfig JString) l).
  { intros l n e Hin Hn.
    assert (Hf : (n, e) ∈ List.filter (fun kv => negb (String.eqb (fst kv) "safe-unix"))
                            (set_property "safe-unix" (getSafeUnixConfig JString) l)).
    { rewrite set_property_others. apply list_elem_of_In, filter_In.
      split; [apply list_elem_of_In, Hin|].
      cbn [fst]. apply negb_true_iff, String.eqb_neq, Hn. }
    apply list_elem_of_In, filter_In in Hf as [Hf _]. apply list_elem_of_In, Hf. }
  subst out. destruct Hc as [E|E]; rewrite E; change (default [] (Some ?x)) with x;
    rewrite set_property_others.
  - split; [apply filter_sublist|split].
    + intros n e Hin Hn _. apply Hkeep; assumption.
    + left. intros n e Hin Hn. apply Hkeep; assumption.
  - split; [|split].
    + etransitivity; [apply filter_sublist|apply filter_sublist].
    + intros n e Hin Hn Hr. apply Hkeep; [|exact Hn].
      unfold purge. apply list_elem_of_In, filter_In.
      split; [apply list_elem_of_In, Hin|].
      cbn [fst]. apply negb_true_iff, has_false, Hr.
    + right. apply detect_after_purge, Hu.
Qed.


(** X22.  In force mode the script asks nothing: its outcome does not
    depend on the answers available, and it never ends cancelled or
    waiting. *)
Theorem force_mode_asks_nothing file answers :
  main JString null_read_message true file answers
  = main JString null_read_message true file [] /\
  main JString null_read_message true file answers <> Cancelled /\
  main JString null_read_message true file answers <> Stalled.
Proof.
  unfold main. cbn [prompt negb andb]. rewrite String.eqb_refl. cbn [negb].
  destruct file as [config|].
  - destruct (detectUnsafeServers _ _) as [unsafe|e]; [|repeat split; discriminate].
    destruct (Nat.ltb 0 (length unsafe)); repeat split; discriminate.
  - destruct (detectUnsafeServers _ _) as [unsafe|e]; [|repeat split; discriminate].
    destruct (Nat.ltb 0 (length unsafe)); repeat split; discriminate.
Qed.

End SetupProperties.

(** ** The command line and the patterns *)

Lemma split_cons sep s : split sep s = hd EmptyString (split sep s) :: tl (split sep s).
Proof.
  destruct s as [|c s]; cbn [split]; [reflexivity|].
  destruct (Ascii.eqb c sep); [reflexivity|]. destruct (split sep s); reflexivity.
Qed.

Lemma split_no_sep sep q s :
  occurs (String sep EmptyString) q = false ->
  split sep (q ++ s) = (q ++ hd EmptyString (split sep s)) :: tl (split sep s).
Proof.
  induction q as [|c q IH]; cbn [occurs].
  - intros _. cbv beta iota delta [String.append]. apply split_cons.
  - intros H. apply orb_false_iff in H as [Hp Hq].
    cbn [String.prefix] in Hp.
    assert (Ec : Ascii.eqb c sep = false).
    { destruct (Ascii.eqb c sep) eqn:E; [|reflexivity].
      apply Ascii.eqb_eq in E. subst c.
      destruct (ascii_dec sep sep) as [_|Hne]; [|contradiction].
      destruct q; discriminate Hp. }
    change (split sep (String c (q ++ s)) =
            String c (q ++ hd EmptyString (split sep s)) :: tl (split sep s)).
    cbn [split]. rewrite Ec, (IH Hq). reflexivity.
Qed.

(** X23.  The path given with [--config-path=] is read up to its first
    [=]: of [--config-path=q] the operand is [q] when [q] holds no [=],
    and of [--config-path=q=r] it is [q] as well, [=r] being dropped. *)
Theorem config_path_stops_at_equals args q rest :
  configPathArg args = Some ("--config-path=" ++ q ++ rest) ->
  occurs "=" q = false ->
  rest = EmptyString \/ startsWith rest "=" = true ->
  config_path_operand args = Some q.
Proof.
  intros Hargs Hq Hrest. unfold config_path_operand. rewrite Hargs. f_equal.
  change (split "=" ("--config-path=" ++ q ++ rest))
    with ("--config-path" :: split "=" (q ++ rest)).
  rewrite (split_no_sep "=" q rest Hq). cbn [nth].
  destruct Hrest as [->|Hr].
  - cbn [split hd]. apply append_empty_r.
  - destruct rest as [|c rest]; [discriminate Hr|].
    unfold startsWith in Hr. cbn [String.prefix] in Hr.
    destruct (ascii_dec "=" c) as [<-|]; [|discriminate Hr].
    cbn [split]. change (Ascii.eqb "=" "=") with true. cbv iota. cbn [hd].
    apply append_empty_r.
Qed.

Lemma append_cons c a b : String c a ++ b = String c (a ++ b).
Proof. reflexivity. Qed.

Lemma prefix_app p s : String.prefix p s = true <-> exists b, s = p ++ b.
Proof.
  revert s. induction p as [|c p IH]; intros s.
  - split; [intros _; exists s; reflexivity|]. intros _. destruct s; reflexivity.
  - destruct s as [|d s]; cbn [String.prefix].
    + split; [discriminate|]. intros [b Hb]. discriminate Hb.
    + destruct (ascii_dec c d) as [<-|Hne].
      * rewrite IH. split; intros [b Hb]; exists b.
        -- rewrite append_cons, Hb. reflexivity.
        -- rewrite append_cons in Hb. injection Hb. auto.
      * split; [discriminate|]. intros [b Hb].
        rewrite append_cons in Hb. injection Hb as Hcd _. congruence.
Qed.

Lemma occurs_app p s : occurs p s = true <-> exists a b, s = a ++ p ++ b.
Proof.
  split.
  - induction s as [|c s IH]; cbn [occurs]; intros H.
    + rewrite orb_false_r in H. apply prefix_app in H as [b Hb].
      exists EmptyString, b. exact Hb.
    + apply orb_true_iff in H as [H|H].
      * apply prefix_app in H as [b Hb]. exists EmptyString, b. exact Hb.
      * destruct (IH H) as (a & b & ->). exists (String c a), b. reflexivity.
  - intros (a & b & ->). induction a as [|c a IH].
    + assert (H : String.prefix p (p ++ b) = true) by (apply prefix_app; eauto).
      change (EmptyString ++ p ++ b) with (p ++ b).
      destruct (p ++ b); cbn [occurs]; rewrite H; reflexivity.
    + rewrite append_cons. cbn [occurs]. rewrite IH. apply orb_true_r.
Qed.

Lemma lowercase_app a b : lowercase (a ++ b) = lowercase a ++ lowercase b.
Proof.
  induction a as [|c a IH]; [reflexivity|].
  rewrite append_cons. cbn [lowercase]. rewrite append_cons, IH. reflexivity.
Qed.

Lemma lowercase_split s x y :
  lowercase s = x ++ y -> exists a b, s = a ++ b /\ lowercase a = x /\ lowercase b = y.
Proof.
  revert s. induction x as [|c x IH]; intros s H.
  - exists EmptyString, s. auto.
  - destruct s as [|d s]; [discriminate H|].
    rewrite append_cons in H. cbn [lowercase] in H. injection H as Hc Hs.
    destruct (IH s Hs) as (a & b & -> & Ha & Hb).
    exists (String d a), b. cbn [lowercase]. rewrite Hc, Ha. auto.
Qed.

(** X24.  A string is suspicious exactly when it contains, somewhere, a
    run of characters that is one of the seven patterns up to the case of
    its ASCII letters. *)
Theorem suspicious_iff_contains_pattern s :
  suspicious s = true <->
  exists pattern a t b,
    pattern ∈ UNSAFE_PATTERNS /\ s = a ++ t ++ b /\ lowercase t = pattern.
Proof.
  unfold suspicious. rewrite existsb_exists. unfold test_i. split.
  - intros (p & Hp & Ho). apply occurs_app in Ho as (a' & b' & Ho).
    apply lowercase_split in Ho as (a & tb & -> & Ha & Htb).
    apply lowercase_split in Htb as (t & b & -> & Ht & Hb).
    exists p, a, t, b. split; [apply list_elem_of_In, Hp|auto].
  - intros (p & a & t & b & Hp & -> & Ht). exists p.
    split; [apply list_elem_of_In, Hp|].
    apply occurs_app. exists (lowercase a), (lowercase b).
    rewrite !lowercase_app, Ht. reflexivity.
Qed.

(** * The claims on concrete requests *)

(** C1 fails as stated: [safe_grep] hands a token it knows nothing about
    to [grep], and [safe_stat] hands over a single-dash flag. *)
Lemma open_operations_pass_unknown_flags :
  handle quiet plain_message (call_request 1 "safe_grep" ["--no-such-flag"]) (boot tt)
  = ({| world := tt;
        spawned := [{| file := "grep"; argv := ["--no-such-flag"]; shell := false |}] |},
     {| rid := 1; payload := PResult (RCall (Some "")) |})
  /\ handle quiet plain_message (call_request 2 "safe_stat" ["-x"; "f"]) (boot tt)
  = ({| world := tt;
        spawned := [{| file := "stat"; argv := ["-x"; "f"]; shell := false |}] |},
     {| rid := 2; payload := PResult (RCall (Some "")) |}).
Proof. split; vm_compute; reflexivity. Qed.

Lemma validation_rules_by_operation_witness :
  ("safe_grep", pass quiet "grep") ∈ tools quiet /\
  ("safe_grep" ∉ (guarded ++ reshaping)%list) /\
  exists cmd,
    pass quiet "grep" (Some ["--no-such-flag"]) (boot tt)
    = run quiet cmd ["--no-such-flag"] (boot tt).
Proof.
  assert (Hin : ("safe_grep", pass quiet "grep") ∈ tools quiet).
  { unfold tools. do 9 apply list_elem_of_further. apply list_elem_of_here. }
  assert (Hout : "safe_grep" ∉ (guarded ++ reshaping)%list).
  { apply (bool_decide_unpack _). vm_compute. reflexivity. }
  split; [exact Hin|split; [exact Hout|]].
  apply (validation_rules_by_operation quiet "safe_grep" (pass quiet "grep")
           ["--no-such-flag"] (boot tt) Hin).
  exact Hout.
Defined.

Lemma allowlist_rejects_foreign_flag_witness :
  exists b pre post,
    ["-R"; "--unsafe-flag"] = (pre ++ b :: post)%list /\
    Forall (fun x => foreign_flag ls_allowlist x = false) pre /\
    startsWith b "-" = true /\ (b ∉ ls_allowlist) /\
    handle quiet plain_message (call_request 1 "safe_ls" ["-R"; "--unsafe-flag"]) (boot tt)
    = (boot tt, error_reply 1 ("flag not allowed here: " ++ b)) /\
    launches (boot tt)
      (handle quiet plain_message (call_request 1 "safe_ls" ["-R"; "--unsafe-flag"]) (boot tt)).1
    = [].
Proof.
  apply (allowlist_rejects_foreign_flag quiet plain_message 1 "safe_ls" "ls" ls_allowlist
           ["-R"; "--unsafe-flag"] "--unsafe-flag" (boot tt)).
  - apply list_elem_of_here.
  - apply list_elem_of_further, list_elem_of_here.
  - reflexivity.
  - apply (bool_decide_unpack _). vm_compute. reflexivity.
Defined.

Lemma denylist_rejects_exact_tokens_witness :
  (exists b, b ∈ ["-n"; "s/a/b/"; "-i"; "f"] /\ b ∈ FORBIDDEN_TOKENS /\
     handle quiet plain_message (call_request 1 "safe_sed" ["-n"; "s/a/b/"; "-i"; "f"]) (boot tt)
     = (boot tt, error_reply 1 ("forbidden argument: " ++ b)) /\
     launches (boot tt)
       (handle quiet plain_message (call_request 1 "safe_sed" ["-n"; "s/a/b/"; "-i"; "f"])
          (boot tt)).1 = []) /\
  (handle quiet plain_message (call_request 2 "safe_sed" ["-ni"; "s/a/b/"; "f"]) (boot tt)
   = respond 2 (run quiet "sed" ["-ni"; "s/a/b/"; "f"] (boot tt)) /\
   launches (boot tt)
     (handle quiet plain_message (call_request 2 "safe_sed" ["-ni"; "s/a/b/"; "f"]) (boot tt)).1
   = [{| file := "sed"; argv := ["-ni"; "s/a/b/"; "f"]; shell := false |}]).
Proof.
  assert (Hn : ("safe_sed", "sed") ∈ [("safe_find", "find"); ("safe_sed", "sed")]).
  { apply list_elem_of_further, list_elem_of_here. }
  split.
  - apply (proj1 (denylist_rejects_exact_tokens quiet plain_message 1 "safe_sed" "sed"
                    ["-n"; "s/a/b/"; "-i"; "f"] (boot tt) Hn) "-i").
    + do 2 apply list_elem_of_further. apply list_elem_of_here.
    + do 3 apply list_elem_of_further. apply list_elem_of_here.
  - apply (proj2 (denylist_rejects_exact_tokens quiet plain_message 2 "safe_sed" "sed"
                    ["-ni"; "s/a/b/"; "f"] (boot tt) Hn)).
    repeat constructor; apply (bool_decide_unpack _); vm_compute; reflexivity.
Defined.

Lemma safe_git_subcommand_gate_witness :
  (handle quiet plain_message (call_request 1 "safe_git" ["log"; "--oneline"]) (boot tt)
   = respond 1 (run quiet "git" ["log"; "--oneline"] (boot tt)) /\
   launches (boot tt)
     (handle quiet plain_message (call_request 1 "safe_git" ["log"; "--oneline"]) (boot tt)).1
   = [{| file := "git"; argv := ["log"; "--oneline"]; shell := false |}]) /\
  (handle quiet plain_message (call_request 2 "safe_git" []) (boot tt)
   = (boot tt, error_reply 2 "git subcommand not allowed: ") /\
   launches (boot tt) (handle quiet plain_message (call_request 2 "safe_git" []) (boot tt)).1
   = []).
Proof.
  split.
  - apply (proj1 (safe_git_subcommand_gate quiet plain_message 1 ["log"; "--oneline"] (boot tt))).
    exists "log", ["--oneline"]. split; [reflexivity|].
    do 3 apply list_elem_of_further. apply list_elem_of_here.
  - apply (proj2 (safe_git_subcommand_gate quiet plain_message 2 [] (boot tt))).
    intros (sub & rest & E & _). discriminate E.
Defined.

Lemma accepted_vector_is_launched_literally_witness :
  "safe_git" ∈ Object_keys (tools quiet)
  /\ passes_validation "safe_git" ["log"; "a; rm -rf $HOME"] = true
  /\ handle quiet plain_message (call_request 1 "safe_git" ["log"; "a; rm -rf $HOME"]) (boot tt)
     = respond 1 (run quiet "git" ["log"; "a; rm -rf $HOME"] (boot tt))
  /\ launches (boot tt)
       (handle quiet plain_message
          (call_request 1 "safe_git" ["log"; "a; rm -rf $HOME"]) (boot tt)).1
     = [{| file := "git"; argv := ["log"; "a; rm -rf $HOME"]; shell := false |}].
Proof.
  assert (Hn : "safe_git" ∈ Object_keys (tools quiet)).
  { apply (bool_decide_unpack _). vm_compute. reflexivity. }
  assert (Hok : passes_validation "safe_git" ["log"; "a; rm -rf $HOME"] = true)
    by reflexivity.
  split; [exact Hn|split; [exact Hok|]].
  exact (proj1 (proj2 (accepted_vector_is_launched_literally quiet plain_message 1
                         "safe_git" (Some ["log"; "a; rm -rf $HOME"]) (boot tt) Hn)) Hok).
Defined.

Lemma policy_decision_deterministic_witness :
  launches (boot tt)
    (handle quiet plain_message (call_request 1 "safe_find" ["."; "-delete"]) (boot tt)).1
  = []
  /\ (handle quiet plain_message (call_request 1 "safe_find" ["."; "-delete"]) (boot tt)).2
   = (handle quiet plain_message (call_request 1 "safe_find" ["."; "-delete"])
        {| world := tt; spawned := [{| file := "ls"; argv := []; shell := false |}] |}).2.
Proof.
  assert (Hnil : launches (boot tt)
            (handle quiet plain_message (call_request 1 "safe_find" ["."; "-delete"])
               (boot tt)).1 = []).
  { reflexivity. }
  split; [exact Hnil|].
  exact (proj2 (policy_decision_deterministic quiet plain_message
                  (call_request 1 "safe_find" ["."; "-delete"]) (boot tt)
                  {| world := tt; spawned := [{| file := "ls"; argv := []; shell := false |}] |})
               Hnil).
Defined.

(** C6 fails as stated: the error object of a refusal and that of a
    command that ran and failed can be the same.  [safe_sed] refuses
    [-i]; [awk], run on a program that prints the same words on stderr and
    exits with 1, is relayed with the same code and the same message. *)
Lemma refusal_and_failure_look_alike :
  spawned
    (handle (failing "forbidden argument: -i") plain_message
       (call_request 1 "safe_sed" ["-i"]) (boot tt)).1 = []
  /\ spawned
       (handle (failing "forbidden argument: -i") plain_message
          (call_request 1 "safe_awk"
             ["-v"; "m=forbidden argument: -i"; "-v"; "e=/dev/stderr";
              "BEGIN { printf m > e; exit 1 }"]) (boot tt)).1
     = [{| file := "awk";
           argv := ["-v"; "m=forbidden argument: -i"; "-v"; "e=/dev/stderr";
                    "BEGIN { printf m > e; exit 1 }"];
           shell := false |}]
  /\ (handle (failing "forbidden argument: -i") plain_message
        (call_request 1 "safe_sed" ["-i"]) (boot tt)).2
     = (handle (failing "forbidden argument: -i") plain_message
          (call_request 1 "safe_awk"
             ["-v"; "m=forbidden argument: -i"; "-v"; "e=/dev/stderr";
              "BEGIN { printf m > e; exit 1 }"]) (boot tt)).2.
Proof. repeat split; vm_compute; reflexivity. Qed.

Lemma call_reply_classification_witness :
  ("safe_cat" ∉ "__proto__" :: Object_prototype_functions)
  /\ is_error
       (handle (failing "cat: f: No such file or directory") plain_message
          (call_request 1 "safe_cat" ["f"]) (boot tt)).2 = true
  /\ (handle (failing "cat: f: No such file or directory") plain_message
        (call_request 1 "safe_cat" ["f"]) (boot tt)).2
     = error_reply 1 "cat: f: No such file or directory".
Proof.
  assert (Hn : "safe_cat" ∉ "__proto__" :: Object_prototype_functions).
  { apply (bool_decide_unpack _). vm_compute. reflexivity. }
  pose proof (call_reply_classification (failing "cat: f: No such file or directory")
                plain_message 1 "safe_cat" ["f"] (boot tt) Hn) as (Herr & _ & Hfail & _).
  split; [exact Hn|split].
  - apply Herr. right.
    exists {| file := "cat"; argv := ["f"]; shell := false |}.
    split; [reflexivity|]. intros o e. discriminate.
  - apply (Hfail {| file := "cat"; argv := ["f"]; shell := false |} (Some 1%Z) ""
             "cat: f: No such file or directory").
    + reflexivity.
    + reflexivity.
    + discriminate.
Defined.

(** * The further properties on concrete inputs *)

Lemma error_objects_have_text_witness :
  payload (handle quiet plain_message (call_request 1 "safe_find" ["-delete"]) (boot tt)).2
  = PError (-32000) "forbidden argument: -delete"
  /\ (-32000 = -32000)%Z /\ "forbidden argument: -delete" <> "".
Proof.
  assert (H : payload (handle quiet plain_message
                         (call_request 1 "safe_find" ["-delete"]) (boot tt)).2
              = PError (-32000) "forbidden argument: -delete") by reflexivity.
  split; [exact H|].
  exact (error_objects_have_text quiet plain_message _ _ _ _ H).
Defined.

Lemma only_catalogue_calls_launch_witness :
  launches (boot tt) (handle quiet plain_message (call_request 1 "safe_pwd" []) (boot tt)).1
  <> []
  /\ method (call_request 1 "safe_pwd" []) = "tools/call"
  /\ name (call_request 1 "safe_pwd" []) ∈ Object_keys (tools quiet).
Proof.
  assert (H : launches (boot tt)
                (handle quiet plain_message (call_request 1 "safe_pwd" []) (boot tt)).1 <> [])
    by discriminate.
  split; [exact H|].
  exact (only_catalogue_calls_launch quiet plain_message _ _ H).
Defined.

Lemma launched_program_is_in_table_witness :
  {| file := "md5sum"; argv := ["f"]; shell := false |}
    ∈ launches (boot tt)
        (handle quiet plain_message (call_request 1 "safe_sha" ["md5sum"; "f"]) (boot tt)).1
  /\ file {| file := "md5sum"; argv := ["f"]; shell := false |} ∈ programs.
Proof.
  assert (H : {| file := "md5sum"; argv := ["f"]; shell := false |}
                ∈ launches (boot tt)
                    (handle quiet plain_message
                       (call_request 1 "safe_sha" ["md5sum"; "f"]) (boot tt)).1)
    by apply list_elem_of_here.
  split; [exact H|].
  exact (launched_program_is_in_table quiet plain_message _ _ _ H).
Defined.

Lemma allowlist_accepts_exactly_witness :
  ("safe_tar_list", "tar", tar_allowed) ∈
    [("safe_ls", "ls", ls_allowlist); ("safe_tar_list", "tar", tar_allowed)]
  /\ Forall (fun a => startsWith a "-" = true -> a ∈ tar_allowed) ["-t"; "-f"; "a.tar"]
  /\ launches (boot tt)
       (handle quiet plain_message
          (call_request 1 "safe_tar_list" ["-t"; "-f"; "a.tar"]) (boot tt)).1
     = [{| file := "tar"; argv := ["-t"; "-f"; "a.tar"]; shell := false |}].
Proof.
  assert (Hn : ("safe_tar_list", "tar", tar_allowed) ∈
                 [("safe_ls", "ls", ls_allowlist); ("safe_tar_list", "tar", tar_allowed)])
    by apply list_elem_of_further, list_elem_of_here.
  assert (Hall : Forall (fun a => startsWith a "-" = true -> a ∈ tar_allowed)
                        ["-t"; "-f"; "a.tar"]).
  { apply Forall_cons. split; [intros _; apply list_elem_of_here|].
    apply Forall_cons. split; [intros _; apply list_elem_of_further, list_elem_of_here|].
    apply Forall_cons. split; [discriminate|constructor]. }
  split; [exact Hn|split; [exact Hall|]].
  exact (proj2 (allowlist_accepts_exactly quiet plain_message 1 "safe_tar_list" "tar"
                  tar_allowed ["-t"; "-f"; "a.tar"] (boot tt) Hn) Hall).
Defined.

Lemma unzip_list_gate_witness :
  ("-l" ∉ ["-o"; "a.zip"])
  /\ handle quiet plain_message (call_request 1 "safe_unzip_list" ["-o"; "a.zip"]) (boot tt)
     = (boot tt, error_reply 1 "safe_unzip_list requires -l (list) mode")
  /\ launches (boot tt)
       (handle quiet plain_message (call_request 1 "safe_unzip_list" ["-o"; "a.zip"])
          (boot tt)).1 = [].
Proof.
  assert (Hl : "-l" ∉ ["-o"; "a.zip"]).
  { apply (bool_decide_unpack _). vm_compute. reflexivity. }
  split; [exact Hl|].
  exact (proj2 (unzip_list_gate quiet plain_message 1 ["-o"; "a.zip"] (boot tt)) Hl).
Defined.

Lemma announced_names_are_dispatched_witness :
  "safe_cat" ∈ Object_keys (tools quiet)
  /\ exists f, own_property (tools quiet) "safe_cat" = Some f /\
       forall i args h,
         handle quiet plain_message (call_request i "safe_cat" args) h
         = respond i (f (Some args) h).
Proof.
  assert (Hn : "safe_cat" ∈ Object_keys (tools quiet)).
  { do 4 apply list_elem_of_further. apply list_elem_of_here. }
  split; [exact Hn|].
  exact (proj2 (proj2 (announced_names_are_dispatched quiet plain_message)) "safe_cat" Hn).
Defined.

Lemma unknown_name_is_refused_witness :
  ("rm" ∉ Object_keys (tools quiet))
  /\ ("rm" ∉ "__proto__" :: Object_prototype_functions)
  /\ handle quiet plain_message (call_request 1 "rm" ["-rf"; "/"]) (boot tt)
     = (boot tt, error_reply 1 "unknown tool").
Proof.
  assert (Hk : "rm" ∉ Object_keys (tools quiet)).
  { apply (bool_decide_unpack _). vm_compute. reflexivity. }
  assert (Hp : "rm" ∉ "__proto__" :: Object_prototype_functions).
  { apply (bool_decide_unpack _). vm_compute. reflexivity. }
  split; [exact Hk|split; [exact Hp|]].
  exact (unknown_name_is_refused quiet plain_message 1 "rm" ["-rf"; "/"] (boot tt) Hk Hp).
Defined.

Lemma stat_drops_long_options_witness :
  exists c,
    launches (boot tt)
      (handle quiet plain_message (call_request 1 "safe_stat" ["--format=%n"; "-L"; "f"])
         (boot tt)).1 = [c] /\
    file c = "stat" /\
    Forall (fun a => startsWith a "--" = false) (argv c) /\
    "-L" ∈ argv c.
Proof.
  destruct (stat_drops_long_options quiet plain_message 1 ["--format=%n"; "-L"; "f"] (boot tt))
    as (c & Hc & Hf & Hall & Hkeep & _).
  exists c. split; [exact Hc|split; [exact Hf|split; [exact Hall|]]].
  apply Hkeep; [apply list_elem_of_further, list_elem_of_here|reflexivity].
Defined.

Lemma setup_registers_safe_unix_witness :
  main (fun s => s) sample_null_message true (Some sample_config) [] = Written sample_written
  /\ exists servers,
       mcpServers sample_written = Some servers /\
       get_property "safe-unix" servers = Some (getSafeUnixConfig (fun s => s)) /\
       settings sample_written = settings_of (Some sample_config).
Proof.
  assert (H : main (fun s => s) sample_null_message true (Some sample_config) []
              = Written sample_written) by (vm_compute; reflexivity).
  split; [exact H|].
  exact (setup_registers_safe_unix (fun s => s) sample_null_message true
           (Some sample_config) [] sample_written H).
Defined.

Lemma detect_reports_exactly_witness :
  detectUnsafeServers sample_null_message (servers_of (Some sample_config))
  = Normal [("shell-mcp", SObject (Some "npx") (Some "Run commands") [])]
  /\ [("shell-mcp", SObject (Some "npx") (Some "Run commands") [])]
       `sublist_of` servers_of (Some sample_config).
Proof.
  assert (H : detectUnsafeServers sample_null_message (servers_of (Some sample_config))
              = Normal [("shell-mcp", SObject (Some "npx") (Some "Run commands") [])])
    by (vm_compute; reflexivity).
  split; [exact H|].
  exact (proj1 (detect_reports_exactly sample_null_message _ _ H)).
Defined.

Lemma null_entry_is_fatal_witness :
  mcpServers {| mcpServers := Some [("a", SObject None None []); ("b", @SNull string)];
                settings := [] |}
  = Some [("a", SObject None None []); ("b", SNull)]
  /\ ("b", @SNull string) ∈ [("a", SObject None None []); ("b", SNull)]
  /\ "b" <> "safe-unix"
  /\ main (fun s => s) sample_null_message false
          (Some {| mcpServers := Some [("a", SObject None None []); ("b", @SNull string)];
                   settings := [] |}) ["y"; "y"]
     = Fatal (TypeError sample_null_message).
Proof.
  assert (Hin : ("b", @SNull string) ∈ [("a", SObject None None []); ("b", SNull)])
    by apply list_elem_of_further, list_elem_of_here.
  assert (Hn : "b" <> "safe-unix") by discriminate.
  split; [reflexivity|split; [exact Hin|split; [exact Hn|]]].
  exact (null_entry_is_fatal (fun s => s) sample_null_message false
           {| mcpServers := Some [("a", SObject None None []); ("b", @SNull string)];
              settings := [] |}
           [("a", SObject None None []); ("b", SNull)] ["y"; "y"] "b"
           eq_refl Hin Hn).
Defined.

Lemma forced_setup_is_idempotent_witness :
  main (fun s => s) sample_null_message true (Some sample_config) [] = Written sample_written
  /\ detectUnsafeServers sample_null_message (default [] (mcpServers sample_written))
     = Normal []
  /\ main (fun s => s) sample_null_message true (Some sample_written) []
     = Written sample_written.
Proof.
  assert (H : main (fun s => s) sample_null_message true (Some sample_config) []
              = Written sample_written) by (vm_compute; reflexivity).
  split; [exact H|].
  exact (forced_setup_is_idempotent (fun s => s) sample_null_message
           (Some sample_config) [] [] sample_written H).
Defined.

Lemma setup_keeps_other_servers_witness :
  main (fun s => s) sample_null_message true (Some sample_config) [] = Written sample_written
  /\ List.filter (fun kv => negb (String.eqb (fst kv) "safe-unix"))
                 (default [] (mcpServers sample_written))
       `sublist_of` servers_of (Some sample_config)
  /\ ("notes", SObject (Some "notes-server") None [("port", "8080")])
       ∈ default [] (mcpServers sample_written).
Proof.
  assert (H : main (fun s => s) sample_null_message true (Some sample_config) []
              = Written sample_written) by (vm_compute; reflexivity).
  destruct (setup_keeps_other_servers (fun s => s) sample_null_message true
              (Some sample_config) [] sample_written H) as (Hsub & Hkeep & _).
  split; [exact H|split; [exact Hsub|]].
  apply Hkeep.
  - apply list_elem_of_further, list_elem_of_here.
  - discriminate.
  - apply (bool_decide_unpack _). vm_compute. reflexivity.
Defined.


Lemma config_path_stops_at_equals_witness :
  configPathArg ["--force"; "--config-path=/tmp/a=b.json"]
  = Some ("--config-path=" ++ "/tmp/a" ++ "=b.json")
  /\ occurs "=" "/tmp/a" = false
  /\ config_path_operand ["--force"; "--config-path=/tmp/a=b.json"] = Some "/tmp/a".
Proof.
  split; [reflexivity|split; [reflexivity|]].
  exact (config_path_stops_at_equals ["--force"; "--config-path=/tmp/a=b.json"]
           "/tmp/a" "=b.json" eq_refl eq_refl (or_intror eq_refl)).
Defined.

Lemma suspicious_iff_contains_pattern_witness :
  "unix" ∈ UNSAFE_PATTERNS /\ lowercase "UNIX" = "unix" /\ suspicious "My-UNIX-box" = true.
Proof.
  assert (Hp : "unix" ∈ UNSAFE_PATTERNS) by apply list_elem_of_here.
  split; [exact Hp|split; [reflexivity|]].
  apply (proj2 (suspicious_iff_contains_pattern "My-UNIX-box")).
  exists "unix", "My-", "UNIX", "-box". split; [exact Hp|split; reflexivity].
Defined.

Lemma synchronous_lines_are_answered_in_order_witness :
  Forall (passes quiet sample_decode) ["ping"; ""; "list"]
  /\ indexOf newline "{" = None
  /\ loop quiet plain_message sample_decode (join_lines ["ping"; ""; "list"] ++ "{")
          (boot tt) [] []
     = {| buf := "{";
          host := boot tt;
          written := [ {| rid := 3; payload := PResult ROk |};
                       {| rid := 4; payload := PResult (RNames (Object_keys (tools quiet))) |} ];
          awaited := [];
          last := Drained |}.
Proof.
  assert (Hl : Forall (passes quiet sample_decode) ["ping"; ""; "list"]).
  { repeat (apply Forall_cons; split; [split; [reflexivity|vm_compute; auto]|]).
    constructor. }
  split; [exact Hl|split; [reflexivity|]].
  rewrite (synchronous_lines_are_answered_in_order quiet plain_message sample_decode
             ["ping"; ""; "list"] "{" (boot tt) [] [] Hl eq_refl).
  vm_compute. reflexivity.
Defined.

Lemma unknown_tool_ends_the_invocation_witness :
  loop quiet plain_message sample_decode
       (join_lines ["ping"] ++ "nope" ++ String newline (join_lines ["ls"; "ping"]))
       (boot tt) [] []
  = {| buf := join_lines ["ls"; "ping"];
       host := boot tt;
       written := [ {| rid := 3; payload := PResult ROk |};
                    error_reply 2 "unknown tool" ];
       awaited := [];
       last := Returned |}.
Proof.
  rewrite (unknown_tool_ends_the_invocation quiet plain_message sample_decode
             ["ping"] "nope" (call_request 2 "no_such_tool" [])
             (join_lines ["ls"; "ping"]) (boot tt) [] []).
  - vm_compute. reflexivity.
  - apply Forall_cons. split; [split; [reflexivity|vm_compute; auto]|constructor].
  - reflexivity.
  - reflexivity.
  - vm_compute. reflexivity.
Defined.

Lemma awaited_call_sets_the_invocation_aside_witness :
  loop quiet plain_message sample_decode
       (join_lines ["ping"] ++ "ls" ++ String newline (join_lines ["list"]))
       (boot tt) [] []
  = {| buf := join_lines ["list"];
       host := {| world := tt;
                  spawned := [{| file := "ls"; argv := ["-l"]; shell := false |}] |};
       written := [ {| rid := 3; payload := PResult ROk |} ];
       awaited := [ {| rid := 1; payload := PResult (RCall (Some "")) |} ];
       last := Awaiting |}.
Proof.
  rewrite (awaited_call_sets_the_invocation_aside quiet plain_message sample_decode
             ["ping"] "ls" (call_request 1 "safe_ls" ["-l"])
             (join_lines ["list"]) (boot tt) [] []).
  - vm_compute. reflexivity.
  - apply Forall_cons. split; [split; [reflexivity|vm_compute; auto]|constructor].
  - reflexivity.
  - reflexivity.
  - vm_compute. reflexivity.
Defined.

Lemma later_lines_overtake_an_awaited_call_witness :
  map rid
    (written
       (run_events quiet plain_message sample_decode
          [Data ("ls" ++ String newline EmptyString); Data (join_lines ["ping"; "list"]);
           Settled 0] (started tt)))
  = [3%Z; 4%Z; 1%Z].
Proof.
  assert (Hl : Forall (passes quiet sample_decode) ["ping"; "list"]).
  { repeat (apply Forall_cons; split; [split; [reflexivity|vm_compute; auto]|]).
    constructor. }
  assert (Hp : last (started tt) <> Raised) by discriminate.
  exact (f_equal (fun p => map rid (written p))
           (later_lines_overtake_an_awaited_call quiet plain_message sample_decode
              (started tt) "ls" (call_request 1 "safe_ls" ["-l"]) ["ping"; "list"]
              Hp eq_refl eq_refl eq_refl eq_refl Hl)).
Defined.

